(** * uppasd_sweeper: the temperature sweep driver [t_sweeper.py]

    A shallow embedding of the sweep script and the properties of its
    specification.

    Modelling conventions.
    - A Python [str] is a [string]; a [dict] with string keys is a
      [gmap string _].
    - A Python [float] is an exact rational ([Q]).  The model computes what
      the program computes whenever the floating point operations involved
      are exact (integer valued temperatures and steps, halves, ...).
    - The file system is a finite map from paths (tuples of components, as
      [pathlib] splits them) to nodes.
    - An exception is a value of [exn]; a call that can raise returns a
      [result].
    - [print] calls are not modelled. *)

From Stdlib Require Import Ascii String QArith Qround Lqa.
From stdpp Require Import gmap strings list fin_maps pretty.

Local Open Scope string_scope.
Local Open Scope Z_scope.
Local Open Scope list_scope.

(** ** Python strings *)

Module Str.

(** [s.startswith(p)] *)
Fixpoint startswith (p s : string) : bool :=
  match p, s with
  | EmptyString, _ => true
  | String _ _, EmptyString => false
  | String a p', String b s' =>
      if decide (a = b) then startswith p' s' else false
  end.

(** [sub in s] *)
Fixpoint contains (sub s : string) : bool :=
  startswith sub s ||
  match s with
  | EmptyString => false
  | String _ s' => contains sub s'
  end.

(** The characters that [str.strip()] removes from an ASCII string. *)
Definition is_space (c : ascii) : bool :=
  match c with
  | "009" | "010" | "011" | "012" | "013"
  | "028" | "029" | "030" | "031" | " " => true
  | _ => false
  end%char.

Fixpoint lstrip (s : string) : string :=
  match s with
  | EmptyString => EmptyString
  | String c s' => if is_space c then lstrip s' else s
  end.

Definition rstrip (s : string) : string :=
  String.rev (lstrip (String.rev s)).

(** [s.strip()] *)
Definition strip (s : string) : string := rstrip (lstrip s).

(** [s.split(c, 1)] on a string that contains [c]: the text before the
    first [c] and the text after it. *)
Fixpoint split1 (c : ascii) (s : string) : string * string :=
  match s with
  | EmptyString => (EmptyString, EmptyString)
  | String a s' =>
      if decide (a = c) then (EmptyString, s')
      else let '(k, v) := split1 c s' in (String a k, v)
  end.

(** Text mode reading translates ["\r\n"] and a lone ["\r"] to ["\n"]. *)
Fixpoint universal_newlines (s : string) : string :=
  match s with
  | EmptyString => EmptyString
  | String "013"%char s' =>
      match s' with
      | String "010"%char _ => universal_newlines s'
      | _ => String "010"%char (universal_newlines s')
      end
  | String a s' => String a (universal_newlines s')
  end.

(** Iterating over a text file: the lines, each with its terminator. *)
Fixpoint lines_go (cur : string) (s : string) : list string :=
  match s with
  | EmptyString =>
      match cur with EmptyString => [] | _ => [String.rev cur] end
  | String "010"%char s' =>
      String.rev (String "010"%char cur) :: lines_go EmptyString s'
  | String a s' => lines_go (String a cur) s'
  end.

Definition lines (s : string) : list string :=
  lines_go EmptyString (universal_newlines s).

(** [s.replace(old, new)] for a non-empty [old]: the occurrences of [old]
    are found from left to right and do not overlap.  [skip] counts the
    characters of a matched occurrence that are still to be passed. *)
Fixpoint replace_go (old new : string) (skip : nat) (s : string) : string :=
  match s with
  | EmptyString => EmptyString
  | String a s' =>
      match skip with
      | S k => replace_go old new k s'
      | O =>
          if startswith old s
          then new +:+ replace_go old new (String.length old - 1) s'
          else String a (replace_go old new 0 s')
      end
  end.

Definition replace (old new s : string) : string := replace_go old new 0 s.

(** [s.lower()] on ASCII text. *)
Definition lower_char (c : ascii) : ascii :=
  let n := nat_of_ascii c in
  if (65 <=? n)%nat && (n <=? 90)%nat then ascii_of_nat (n + 32) else c.

Fixpoint lower (s : string) : string :=
  match s with
  | EmptyString => EmptyString
  | String a s' => String (lower_char a) (lower s')
  end.

(** [s.endswith(p)] *)
Definition endswith (p s : string) : bool :=
  startswith (String.rev p) (String.rev s).

(** The maximal prefix of decimal digits of [s], and the rest. *)
Fixpoint take_digits (s : string) : list N * string :=
  match s with
  | EmptyString => ([], EmptyString)
  | String a s' =>
      match Ascii.is_nat a with
      | Some d => let '(ds, r) := take_digits s' in (N.of_nat d :: ds, r)
      | None => ([], s)
      end
  end.

Definition of_digits (ds : list N) : N :=
  foldl (fun acc d => (10 * acc + d)%N) 0%N ds.

(** [s[i:]] *)
Fixpoint drop (i : nat) (s : string) : string :=
  match i, s with
  | O, _ => s
  | S i', String _ s' => drop i' s'
  | S _, EmptyString => EmptyString
  end.

Definition is_digit (c : ascii) : bool :=
  match Ascii.is_nat c with Some _ => true | None => false end.

(** Every character of [s] satisfies [P]. *)
Fixpoint all_chars (P : ascii -> bool) (s : string) : bool :=
  match s with
  | EmptyString => true
  | String a s' => P a && all_chars P s'
  end.

(** An optional sign: [true] for a leading minus. *)
Definition take_sign (s : string) : bool * string :=
  match s with
  | String "-"%char r => (true, r)
  | String "+"%char r => (false, r)
  | _ => (false, s)
  end.

End Str.


(** ** Python values, exceptions and conversions *)

Inductive exn : Type :=
  | FileNotFoundError
  | NotADirectoryError
  | IsADirectoryError
  | FileExistsError
  | ShutilError
  | UnicodeDecodeError
  | ValueError
  | TypeError
  | ZeroDivisionError
  | RecursionError
  | AttributeError
  | CalledProcessError (returncode : Z)
  | SystemExit (code : Z).

Inductive result (A : Type) : Type :=
  | Ok (a : A)
  | Raise (e : exn).
Arguments Ok {A} a.
Arguments Raise {A} e.

Global Instance result_bind : MBind result :=
  fun A B k r => match r with Ok a => k a | Raise e => Raise e end.

(** The values an attribute of the argument namespace can hold. *)
Inductive pyval : Type :=
  | VNone
  | VInt (z : Z)
  | VFloat (q : Q)
  | VStr (s : string).

Definition signed (neg : bool) (n : N) : Z :=
  if neg then - Z.of_N n else Z.of_N n.

(** [int(text)]: surrounding white space, an optional sign, decimal digits.
    Digit separators (underscores) are outside the model. *)
Definition int_of_text (text : string) : result Z :=
  let '(neg, s1) := Str.take_sign (Str.strip text) in
  match Str.take_digits s1 with
  | ((_ :: _) as ds, EmptyString) => Ok (signed neg (Str.of_digits ds))
  | _ => Raise ValueError
  end.

(** The exponent part of a float literal: nothing, or [e] and a signed
    integer. *)
Definition exponent_of_text (s : string) : option Z :=
  match s with
  | EmptyString => Some 0
  | String c r =>
      if decide (c = "e"%char \/ c = "E"%char) then
        let '(neg, r1) := Str.take_sign r in
        match Str.take_digits r1 with
        | ((_ :: _) as ds, EmptyString) => Some (signed neg (Str.of_digits ds))
        | _ => None
        end
      else None
  end.

(** [float(text)]: surrounding white space, an optional sign, digits with an
    optional fraction, an optional exponent.  The value is the rational the
    literal denotes, in lowest terms; [inf], [nan] and digit separators are
    outside the model. *)
Definition float_of_text (text : string) : result Q :=
  let '(neg, s1) := Str.take_sign (Str.strip text) in
  let '(ip, s2) := Str.take_digits s1 in
  let '(fp, s3) :=
    match s2 with
    | String "."%char r => Str.take_digits r
    | _ => ([], s2)
    end in
  match ip ++ fp, exponent_of_text s3 with
  | _ :: _, Some e =>
      Ok (Qred (inject_Z (signed neg (Str.of_digits (ip ++ fp)))
                * Qpower (10 # 1) (e - Z.of_nat (length fp))))%Q
  | _, _ => Raise ValueError
  end.

(** [float(v)] *)
Definition py_float (v : pyval) : result Q :=
  match v with
  | VFloat q => Ok q
  | VInt z => Ok (inject_Z z)
  | VStr s => float_of_text s
  | VNone => Raise TypeError
  end.

(** [int(v)]: a float is truncated towards zero. *)
Definition py_int (v : pyval) : result Z :=
  match v with
  | VInt z => Ok z
  | VFloat q => Ok (Z.quot (Qnum q) (Z.pos (Qden q)))
  | VStr s => int_of_text s
  | VNone => Raise TypeError
  end.

(** [round(x)] on a float: the nearest integer, a tie going to the even
    one. *)
Definition py_round (x : Q) : Z :=
  let f := Qfloor x in
  match ((x - inject_Z f) ?= (1 # 2))%Q with
  | Lt => f
  | Gt => f + 1
  | Eq => if Z.even f then f else f + 1
  end.

(** [f"{n}"] for an integer. *)
Definition format_d (n : Z) : string := pretty n.

(** [f"{n:04d}"]: at least four characters, the sign first, zeros between
    the sign and the digits. *)
Fixpoint zeros (k : nat) : string :=
  match k with O => EmptyString | S k' => String "0"%char (zeros k') end.

Definition format_04d (n : Z) : string :=
  let digits := pretty (Z.abs_N n) in
  if (n <? 0)%Z
  then String "-"%char (zeros (3 - String.length digits) +:+ digits)
  else zeros (4 - String.length digits) +:+ digits.

(** ** Paths and the file system *)

(** A path is the tuple of its components ([PurePath.parts]).  Paths are
    taken relative to the working directory of the process, which is the
    empty tuple; [..] and links are not resolved. *)
Abbreviation path := (list string).

(** The components of a path text: the text between slashes, without the
    empty ones and the [.] ones; a leading slash is the root component. *)
Fixpoint split_slash (cur : string) (s : string) : list string :=
  match s with
  | EmptyString => [String.rev cur]
  | String "/"%char s' => String.rev cur :: split_slash EmptyString s'
  | String a s' => split_slash (String a cur) s'
  end.

Definition Path (text : string) : path :=
  let parts :=
    filter (fun c => c <> EmptyString /\ c <> ".") (split_slash EmptyString text) in
  if Str.startswith "/" text then "/" :: parts else parts.

(** [str(p)] *)
Fixpoint path_str (p : path) : string :=
  match p with
  | [] => "."
  | [c] => c
  | c :: p' => if decide (c = "/") then c +:+ path_str p' else c +:+ "/" +:+ path_str p'
  end.

(** [p.name] *)
Definition name (p : path) : string := List.last p EmptyString.

(** The position of the last dot of a reversed name, counted from the end. *)
Fixpoint rfind_dot (rev_name : string) : option nat :=
  match rev_name with
  | EmptyString => None
  | String "."%char _ => Some O
  | String _ r => S <$> rfind_dot r
  end.

(** [p.suffix]: the text of the name from its last dot on, when that dot is
    neither the first nor the last character. *)
Definition suffix (p : path) : string :=
  let n := name p in
  match rfind_dot (String.rev n) with
  | Some k =>
      let i := (String.length n - 1 - k)%nat in
      if (0 <? i)%nat && (0 <? k)%nat
      then Str.drop i n else EmptyString
  | None => EmptyString
  end.


(** [p.relative_to(d)]: the components of [p] below [d], when [p] is [d] or
    lies under it. *)
Fixpoint relative_to (d p : path) : option path :=
  match d, p with
  | [], _ => Some p
  | _ :: _, [] => None
  | a :: d', b :: p' => if decide (a = b) then relative_to d' p' else None
  end.

(** What a file holds: text, or bytes that the text encoding rejects. *)
Inductive data : Type :=
  | Text (s : string)
  | Bytes (raw : list N).

Inductive node : Type :=
  | File (d : data)
  | Dir.

Global Instance data_eq_dec : EqDecision data.
Proof. solve_decision. Defined.
Global Instance node_eq_dec : EqDecision node.
Proof. solve_decision. Defined.

(** The state the script acts on: the file system, the files rewritten by
    [write_text] and the processes started, both in order. *)
Record world : Type := World {
  files : gmap path node;
  written : list path;
  started : list (string * path)
}.

Definition set_files (fs : gmap path node) (w : world) : world :=
  World fs (written w) (started w).

(** The working directory itself always exists. *)
Definition node_at (fs : gmap path node) (p : path) : option node :=
  if decide (p = []) then Some Dir else fs !! p.

(** The entries of the tree below [d]: their paths relative to [d]. *)
Definition subtree (d : path) (fs : gmap path node) : list (path * node) :=
  omap (fun '(p, n) =>
          match relative_to d p with
          | Some (c :: r) => Some (c :: r, n)
          | _ => None
          end) (map_to_list fs).

(** ** Computations with state and exceptions *)

Definition M (A : Type) : Type := world -> result A * world.

Definition ret {A} (a : A) : M A := fun w => (Ok a, w).

Definition raise {A} (e : exn) : M A := fun w => (Raise e, w).

Definition bind {A B} (m : M A) (k : A -> M B) : M B :=
  fun w =>
    match m w with
    | (Ok a, w') => k a w'
    | (Raise e, w') => (Raise e, w')
    end.

Notation "'let*' x ':=' m 'in' k" := (bind m (fun x => k))
  (at level 10, x pattern, m at level 100, k at level 200).
Notation "m ';;' k" := (bind m (fun _ => k))
  (at level 100, k at level 200, right associativity).

(** [for a in l: body(a)] *)
Fixpoint for_each {A} (l : list A) (body : A -> M unit) : M unit :=
  match l with
  | [] => ret tt
  | a :: l' => body a ;; for_each l' body
  end.

(** [try: m except e: h] for the exceptions [handles] selects. *)
Definition try_except {A} (m : M A) (handles : exn -> bool) (h : M A) : M A :=
  fun w =>
    match m w with
    | (Raise e, w') => if handles e then h w' else (Raise e, w')
    | r => r
    end.

(** Lifting a pure conversion that can raise. *)
Definition lift {A} (r : result A) : M A := fun w => (r, w).

(** ** File system calls *)

(** [p.is_dir()], [p.is_file()] *)
Definition is_dir (p : path) : M bool :=
  fun w => (Ok (bool_decide (node_at (files w) p = Some Dir)), w).

Definition is_file (p : path) : M bool :=
  fun w => (Ok (match node_at (files w) p with Some (File _) => true | _ => false end), w).

(** [p.mkdir(exist_ok=True)] *)
Definition mkdir_exist_ok (p : path) : M unit :=
  fun w =>
    match node_at (files w) p with
    | Some Dir => (Ok tt, w)
    | Some (File _) => (Raise FileExistsError, w)
    | None =>
        match node_at (files w) (removelast p) with
        | Some Dir => (Ok tt, set_files (<[p := Dir]> (files w)) w)
        | Some (File _) => (Raise NotADirectoryError, w)
        | None => (Raise FileNotFoundError, w)
        end
    end.

(** [d.iterdir()]: the entries of [d] when the iteration starts. *)
Definition iterdir (d : path) : M (list path) :=
  fun w =>
    match node_at (files w) d with
    | Some Dir =>
        (Ok (omap (fun '(r, _) => match r with [c] => Some (d ++ [c]) | _ => None end)
                  (subtree d (files w))), w)
    | Some (File _) => (Raise NotADirectoryError, w)
    | None => (Raise FileNotFoundError, w)
    end.

(** [d.rglob("*")]: every path below [d]. *)
Definition rglob (d : path) : M (list path) :=
  fun w => (Ok (map (fun '(r, _) => d ++ r) (subtree d (files w))), w).

(** [shutil.copy2(src, dst)].  Copying onto an existing directory is
    reported as a conflict ([shutil] would place the file inside it). *)
Definition copy2 (src dst : path) : M unit :=
  fun w =>
    match node_at (files w) src with
    | Some (File d) =>
        if decide (src = dst) then (Raise ShutilError, w)
        else match node_at (files w) dst with
             | Some Dir => (Raise IsADirectoryError, w)
             | _ => (Ok tt, set_files (<[dst := File d]> (files w)) w)
             end
    | Some Dir => (Raise IsADirectoryError, w)
    | None => (Raise FileNotFoundError, w)
    end.

(** An entry of the source tree that cannot be put at its place under
    [dst]: a directory onto a file, or a file onto a directory. *)
Definition conflict (fs : gmap path node) (dst : path) (e : path * node) : bool :=
  match e.2, fs !! (dst ++ e.1) with
  | Dir, Some (File _) => true
  | File _, Some Dir => true
  | _, _ => false
  end.

Definition is_file_entry (e : path * node) : bool :=
  match e.2 with File _ => true | Dir => false end.

(** [shutil.copytree(src, dst, dirs_exist_ok=True)]: [dst] becomes a
    directory and every entry below [src] is put at the same place below
    [dst], replacing what is there.  A tree copied onto itself fails on its
    first file; a tree copied into itself recurses until the interpreter
    stops it.  The source tree is read as it is when the call starts, which
    is what [shutil] does when [dst] does not contain [src].  When the call
    raises on a conflict the entries already copied are not modelled. *)
Definition copytree (src dst : path) : M unit :=
  fun w =>
    let fs := files w in
    match node_at fs dst with
    | Some (File _) => (Raise FileExistsError, w)
    | _ =>
        match relative_to src dst with
        | Some [] =>
            if existsb is_file_entry (subtree src fs)
            then (Raise ShutilError, w) else (Ok tt, w)
        | Some (_ :: _) => (Raise RecursionError, w)
        | None =>
            if existsb (conflict fs dst) (subtree src fs)
            then (Raise ShutilError, w)
            else (Ok tt,
                  set_files (foldr (fun e acc => <[dst ++ e.1 := e.2]> acc)
                                   (<[dst := Dir]> fs) (subtree src fs)) w)
        end
    end.

(** [p.read_text()] *)
Definition read_text (p : path) : M string :=
  fun w =>
    match node_at (files w) p with
    | Some (File (Text s)) => (Ok s, w)
    | Some (File (Bytes _)) => (Raise UnicodeDecodeError, w)
    | Some Dir => (Raise IsADirectoryError, w)
    | None => (Raise FileNotFoundError, w)
    end.

(** [p.write_text(s)] *)
Definition write_text (p : path) (s : string) : M unit :=
  fun w =>
    match node_at (files w) p with
    | Some Dir => (Raise IsADirectoryError, w)
    | _ => (Ok tt, World (<[p := File (Text s)]> (files w)) (written w ++ [p]) (started w))
    end.

(** [open(p, "w")]: the file is created, or emptied. *)
Definition open_w (p : path) : M unit :=
  fun w =>
    match node_at (files w) p with
    | Some Dir => (Raise IsADirectoryError, w)
    | _ => (Ok tt, set_files (<[p := File (Text EmptyString)]> (files w)) w)
    end.

(** ** numpy *)

(** [np.arange(start, stop, step)]: the values [start + i * step] for
    [0 <= i < ceil((stop - start) / step)]. *)
Definition arange (start stop step : Q) : result (list Q) :=
  if Qeq_bool step 0 then Raise ZeroDivisionError
  else
    let n := Z.to_nat (Qceiling ((stop - start) / step)) in
    Ok (map (fun i => (start + inject_Z (Z.of_nat i) * step)%Q) (seq 0 n)).

(** [np.linspace(start, stop, num)]: [num] values from [start] to [stop],
    both included. *)
Definition linspace (start stop : Q) (num : Z) : result (list Q) :=
  if num <? 0 then Raise ValueError
  else
    let step := ((stop - start) / inject_Z (num - 1))%Q in
    Ok (map (fun i => (start + inject_Z (Z.of_nat i) * step)%Q)
            (seq 0 (Z.to_nat num))).

(** ** The configuration file (lines 17-33) *)

(** The body of the loop over the lines. *)
Definition config_line (config : gmap string string) (line : string)
  : gmap string string :=
  if Str.contains "=" line && negb (Str.startswith "#" (Str.strip line))
  then
    let '(key, value) := Str.split1 "="%char (Str.strip line) in
    <[Str.strip key := Str.strip value]> config
  else config.

Definition parse_config_text (text : string) : gmap string string :=
  foldl config_line ∅ (Str.lines text).

Definition parse_config_file (file_path : string) : M (gmap string string) :=
  let* text := read_text (Path file_path) in
  ret (parse_config_text text).

(** ** The argument namespace *)

(** [args.__dict__]: the attributes in the order they were added. *)
Definition namespace : Type := list (string * pyval).

Fixpoint getattr (args : namespace) (k : string) : result pyval :=
  match args with
  | [] => Raise AttributeError
  | (k', v) :: r => if decide (k' = k) then Ok v else getattr r k
  end.

Fixpoint setattr (args : namespace) (k : string) (v : pyval) : namespace :=
  match args with
  | [] => [(k, v)]
  | (k', v') :: r =>
      if decide (k' = k) then (k, v) :: r else (k', v') :: setattr r k v
  end.

(** The attributes [parse_args] starts from: every option with its
    default. *)
Definition defaults : namespace :=
  [("tmin", VInt 0); ("tmax", VInt 500); ("tstep", VInt 100);
   ("steps", VInt 11); ("binary", VStr "./uppasd"); ("base", VStr "Base");
   ("file", VNone)].

(** The [type=] of each option. *)
Definition option_type (dest : string) : option (string -> result pyval) :=
  if decide (dest = "tmin" \/ dest = "tmax" \/ dest = "tstep")
  then Some (fun text => match float_of_text text with
                         | Ok q => Ok (VFloat q) | Raise e => Raise e end)
  else if decide (dest = "steps")
  then Some (fun text => match int_of_text text with
                         | Ok z => Ok (VInt z) | Raise e => Raise e end)
  else if decide (dest = "binary" \/ dest = "base" \/ dest = "file")
  then Some (fun text => Ok (VStr text))
  else None.

(** [parser.parse_args()] on a command line given as its options, each the
    option name without dashes and its text.  An unknown option or a text
    its type rejects ends the process with status 2. *)
Fixpoint parse_args_from (args : namespace) (argv : list (string * string))
  : result namespace :=
  match argv with
  | [] => Ok args
  | (dest, text) :: argv' =>
      match option_type dest with
      | Some conv =>
          match conv text with
          | Ok v => parse_args_from (setattr args dest v) argv'
          | Raise _ => Raise (SystemExit 2)
          end
      | None => Raise (SystemExit 2)
      end
  end.

Definition parse_args (argv : list (string * string)) : result namespace :=
  parse_args_from defaults argv.

(** [config.get(key, default)] *)
Definition config_get (config : gmap string string) (key : string)
    (default : pyval) : pyval :=
  match config !! key with
  | Some text => VStr text
  | None => default
  end.

(** [if v:] *)
Definition truthy (v : pyval) : bool :=
  match v with
  | VNone => false
  | VInt z => negb (z =? 0)
  | VFloat q => negb (Qeq_bool q 0)
  | VStr s => negb (bool_decide (s = EmptyString))
  end.

(** A value used as a number, and as a text. *)
Definition as_number (v : pyval) : result Q :=
  match v with
  | VInt z => Ok (inject_Z z)
  | VFloat q => Ok q
  | _ => Raise TypeError
  end.

Definition as_int (v : pyval) : result Z :=
  match v with
  | VInt z => Ok z
  | _ => Raise TypeError
  end.

Definition as_text (v : pyval) : result string :=
  match v with
  | VStr s => Ok s
  | _ => Raise TypeError
  end.

(** ** Substituting the temperature (lines 36-56) *)

Definition skipped_suffixes : list string := [".exe"; ".bin"].

Definition is_decode_error (e : exn) : bool :=
  match e with UnicodeDecodeError => true | _ => false end.

(** The body of the loop over the paths. *)
Definition substitute (temperature : Q) (p : path) : M unit :=
  let* f := is_file p in
  if f && negb (bool_decide (suffix p ∈ skipped_suffixes)) then
    try_except
      (let* text := read_text p in
       let new_text := Str.replace "TEMP" (format_d (py_round temperature)) text in
       if decide (new_text <> text) then write_text p new_text else ret tt)
      is_decode_error
      (ret tt)
  else ret tt.

Definition replace_temperature_strings (folder_path : path) (temperature : Q)
  : M unit :=
  let* paths := rglob folder_path in
  for_each paths (substitute temperature).

(** ** One simulation (lines 59-95) *)

Section Sweep.

(** The simulation binary: started as [binary] in directory [cwd] on the
    file system as it is then, it either cannot be started, or writes its
    output and ends with an exit status.  What it writes besides its
    output is not modelled. *)
Variable spawn : string -> path -> gmap path node -> option (data * Z).

(** [sys.platform] *)
Variable platform : string.

(** [subprocess.run([binary], cwd=cwd, stdout=log, stderr=STDOUT,
    check=True)] *)
Definition subprocess_run (binary : string) (cwd log : path) : M unit :=
  fun w =>
    match spawn binary cwd (files w) with
    | None => (Raise FileNotFoundError, w)
    | Some (out, status) =>
        let w' := World (<[log := File out]> (files w)) (written w)
                        (started w ++ [(binary, cwd)]) in
        if status =? 0 then (Ok tt, w')
        else (Raise (CalledProcessError status), w')
    end.

Definition folder_name (t : Q) : string := "T_" +:+ format_04d (py_round t).

(** Lines 78-82: the body of the loop over the entries of the base
    directory. *)
Definition copy_item (folder_path item : path) : M unit :=
  let dest := folder_path ++ [name item] in
  let* d := is_dir item in
  if d then copytree item dest else copy2 item dest.

(** Lines 71-85: the workspace of temperature [t] is made, filled from
    [base] and substituted. *)
Definition materialize (t : Q) (base : string) : M path :=
  let folder_path := Path (folder_name t) in
  mkdir_exist_ok folder_path ;;
  let base_path := Path base in
  let* items := iterdir base_path in
  for_each items (copy_item folder_path) ;;
  replace_temperature_strings folder_path t ;;
  ret folder_path.

(** Lines 88-95: the binary runs in the workspace, its output in
    [out.log]. *)
Definition execute (folder_path binary_path : path) : M unit :=
  let log := folder_path ++ ["out.log"] in
  open_w log ;;
  subprocess_run (path_str binary_path) folder_path log.

Definition run_simulation (t : Q) (base : string) (binary_path : path)
  : M unit :=
  let* folder_path := materialize t base in
  execute folder_path binary_path.

(** ** The sweep (lines 98-186) *)

(** Lines 152-164: the values of the configuration file replace those of
    the command line. *)
Definition override (args : namespace) (config : gmap string string)
  : result namespace :=
  old_tmin ← getattr args "tmin";
  tmin ← py_float (config_get config "tmin" old_tmin);
  let args := setattr args "tmin" (VFloat tmin) in
  old_tmax ← getattr args "tmax";
  tmax ← py_float (config_get config "tmax" old_tmax);
  let args := setattr args "tmax" (VFloat tmax) in
  old_tstep ← getattr args "tstep";
  tstep ← py_int (config_get config "tstep" old_tstep);
  let args := setattr args "tstep" (VInt tstep) in
  old_steps ← getattr args "steps";
  steps ← py_int (config_get config "steps" old_steps);
  let args := setattr args "steps" (VInt steps) in
  old_binary ← getattr args "binary";
  let args := setattr args "binary" (config_get config "binary" old_binary) in
  old_base ← getattr args "base";
  Ok (setattr args "base" (config_get config "base" old_base)).

(** Lines 149-164: the resolved configuration. *)
Definition resolve (argv : list (string * string)) : M namespace :=
  let* args := lift (parse_args argv) in
  let* file := lift (getattr args "file") in
  if truthy file then
    let* file_path := lift (as_text file) in
    let* config := parse_config_file file_path in
    lift (override args config)
  else ret args.

(** Lines 166-172: which branch computes the mesh. *)
Inductive branch : Type := StepMode | CountMode | NoMode.

Definition select_branch (args : namespace) : branch :=
  if existsb (Str.contains "tstep") (map fst args) then StepMode
  else if existsb (Str.contains "steps") (map fst args) then CountMode
  else NoMode.

Definition mesh (args : namespace) : result (list Q) :=
  match select_branch args with
  | StepMode =>
      match getattr args "tmin" ≫= as_number,
            getattr args "tmax" ≫= as_number,
            getattr args "tstep" ≫= as_number with
      | Ok tmin, Ok tmax, Ok tstep => arange tmin (tmax + tstep) tstep
      | Raise e, _, _ | _, Raise e, _ | _, _, Raise e => Raise e
      end
  | CountMode =>
      match getattr args "tmin" ≫= as_number,
            getattr args "tmax" ≫= as_number,
            getattr args "steps" ≫= as_int with
      | Ok tmin, Ok tmax, Ok steps => linspace tmin tmax steps
      | Raise e, _, _ | _, Raise e, _ | _, _, Raise e => Raise e
      end
  | NoMode => Raise (SystemExit 1)
  end.

(** Lines 178-182. *)
Definition binary_path_of (binary : string) : path :=
  let binary_path := Path binary in
  if Str.startswith "win" platform
     && negb (Str.endswith ".exe" (Str.lower (path_str binary_path)))
  then Path (path_str binary_path +:+ ".exe")
  else binary_path.

(** Lines 184-186. *)
Definition sweep (temperatures : list Q) (base : string) (binary_path : path)
  : M unit :=
  for_each temperatures (fun t => run_simulation t base binary_path).

Definition main (argv : list (string * string)) : M unit :=
  let* args := resolve argv in
  let* temperatures := lift (mesh args) in
  let* binary := lift (getattr args "binary" ≫= as_text) in
  let binary_path := binary_path_of binary in
  let* base := lift (getattr args "base" ≫= as_text) in
  sweep temperatures base binary_path.

(** The exit status of the process. *)
Definition exit_status (r : result unit) : Z :=
  match r with
  | Ok _ => 0
  | Raise (SystemExit code) => code
  | Raise _ => 1
  end.

End Sweep.

(** ** Vocabulary of the properties *)

(** The text [replace_temperature_strings] puts in place of [text]. *)
Definition new_text (temperature : Q) (text : string) : string :=
  Str.replace "TEMP" (format_d (py_round temperature)) text.

(** What the substitution makes of the node at [p]: a text file whose
    suffix is not skipped gets its new text, anything else stays. *)
Definition substitute_node (temperature : Q) (p : path) (n : node) : node :=
  match n with
  | File (Text text) =>
      if bool_decide (suffix p ∈ skipped_suffixes) then n
      else File (Text (new_text temperature text))
  | _ => n
  end.

(** [q] lies strictly below the directory [d]. *)
Definition below (d q : path) : bool :=
  match relative_to d q with
  | Some (_ :: _) => true
  | _ => false
  end.

(** The substitution rewrites the file at [p]: a text file whose suffix is
    not skipped and whose new text differs from its text. *)
Definition rewrites (temperature : Q) (fs : gmap path node) (p : path) : bool :=
  match fs !! p with
  | Some (File (Text text)) =>
      negb (bool_decide (suffix p ∈ skipped_suffixes))
      && bool_decide (new_text temperature text <> text)
  | _ => false
  end.

(** A template directory with one input file, and a workspace holding a
    copy of it next to a file that is not text. *)
Definition example_base : gmap path node :=
  {[ ["Base"] := Dir; ["Base"; "input.dat"] := File (Text "T=TEMP K") ]}.

Definition example_workspace : gmap path node :=
  {[ ["T_0310"] := Dir;
     ["T_0310"; "input.dat"] := File (Text "T=TEMP K");
     ["T_0310"; "restart"] := File (Bytes [255%N; 254%N]) ]}.

(** A value that [np.arange] takes as a number. *)
Definition is_number (v : pyval) : bool :=
  match v with VInt _ | VFloat _ => true | _ => false end.

(** The shape of the namespace [parse_args] builds: one attribute for each
    option, in the order of the [add_argument] calls, with numbers for the
    three temperatures. *)
Definition parsed (args : namespace) : Prop :=
  exists tmin tmax tstep steps binary base file,
    args = [("tmin", tmin); ("tmax", tmax); ("tstep", tstep); ("steps", steps);
            ("binary", binary); ("base", base); ("file", file)]
    /\ is_number tmin = true /\ is_number tmax = true /\ is_number tstep = true.

(** A working directory that holds a configuration file with a fractional
    step, and one that leaves the step to the command line. *)
Definition fractional_step_world : world :=
  World {[ ["sweep.cfg"] := File (Text "tstep=2.5");
           ["range.cfg"] := File (Text "tmin=1.5") ]} [] [].



(** A computation keeps every file a file (its content may change), and
    one that starts no process. *)
Definition keeps_files {A} (m : M A) : Prop :=
  forall w (p : path) d,
    p <> [] -> files w !! p = Some (File d) ->
    exists d', files (m w).2 !! p = Some (File d').

Definition starts_nothing {A} (m : M A) : Prop :=
  forall w, started (m w).2 = started w.

(** The exceptions of the operating system. *)
Definition is_os_error (e : exn) : bool :=
  match e with
  | FileNotFoundError | NotADirectoryError | IsADirectoryError
  | FileExistsError | ShutilError => true
  | _ => false
  end.

(** A computation that never ends the process through [sys.exit]: an
    exception it raises is an uncaught error. *)
Definition raises_errors {A} (m : M A) : Prop :=
  forall w e w', m w = (Raise e, w') -> exit_status (Raise e) = 1.

(** A binary that fails with status 2 in the workspace of 300 and succeeds
    elsewhere. *)
Definition failing_at_300 (binary : string) (cwd : path) (fs : gmap path node)
  : option (data * Z) :=
  Some (Text "done", if decide (cwd = ["T_0300"]) then 2 else 0).

(** Neither directory is the other or lies under it. *)
Definition unrelated (p q : path) : Prop :=
  relative_to p q = None /\ relative_to q p = None.






(** A binary that always ends well. *)
Definition succeeding (binary : string) (cwd : path) (fs : gmap path node)
  : option (data * Z) :=
  Some (Text "done", 0).




(** A computation that leaves every path outside the directory [W] as
    it is. *)
Definition writes_within {A} (W : path) (m : M A) : Prop :=
  forall w (q : path),
    below W q = false -> q <> W -> files (m w).2 !! q = files w !! q.

(** The keys [main] reads from the configuration file. *)
Definition recognized_keys : list string :=
  ["tmin"; "tmax"; "tstep"; "steps"; "binary"; "base"].

(** The namespace of a command line that was accepted, with the types its
    options give the attributes: numbers for the temperatures, an integer
    for the count, texts for the paths, and a text or nothing for the
    configuration file. *)
Definition typed (args : namespace) : Prop :=
  exists tmin tmax tstep (steps : Z) (binary base : string) file,
    args = [("tmin", tmin); ("tmax", tmax); ("tstep", tstep); ("steps", VInt steps);
            ("binary", VStr binary); ("base", VStr base); ("file", file)]
    /\ is_number tmin = true /\ is_number tmax = true /\ is_number tstep = true
    /\ (file = VNone \/ exists f, file = VStr f).

(** The configuration file of the specification's example. *)
Definition example_config : string :=
  "tmin=100" +:+ String "010"%char "tmax=300" +:+ String "010"%char "tstep=100"
  +:+ String "010"%char "# comment" +:+ String "010"%char "binary=/opt/sim".

(** * Properties *)

(** ** Strings *)

Lemma contains_char_cons c a s :
  Str.contains (String c EmptyString) (String a s)
  = bool_decide (c = a) || Str.contains (String c EmptyString) s.
Proof.
  cbn [Str.contains Str.startswith].
  destruct (decide (c = a)); [by rewrite bool_decide_true|by rewrite bool_decide_false].
Qed.

Lemma contains_char_nil c : Str.contains (String c EmptyString) EmptyString = false.
Proof. reflexivity. Qed.

Lemma contains_char_rev_app c s1 s2 :
  Str.contains (String c EmptyString) (String.rev_app s1 s2)
  = Str.contains (String c EmptyString) s1 || Str.contains (String c EmptyString) s2.
Proof.
  revert s2. induction s1 as [|a s1 IH]; intros s2.
  - by rewrite contains_char_nil.
  - cbn [String.rev_app]. rewrite IH, !contains_char_cons.
    destruct (bool_decide (c = a)), (Str.contains _ s1); simpl; try done.
    all: by rewrite ?orb_true_r.
Qed.

Lemma contains_char_rev c s :
  Str.contains (String c EmptyString) (String.rev s) = Str.contains (String c EmptyString) s.
Proof. unfold String.rev. by rewrite contains_char_rev_app, contains_char_nil, orb_false_r. Qed.

Lemma contains_char_lstrip c s :
  Str.is_space c = false ->
  Str.contains (String c EmptyString) (Str.lstrip s) = Str.contains (String c EmptyString) s.
Proof.
  intros Hc. induction s as [|a s IH]; [done|].
  cbn [Str.lstrip]. destruct (Str.is_space a) eqn:Ha; [|done].
  rewrite IH, contains_char_cons.
  rewrite bool_decide_false; [done|]. intros ->. congruence.
Qed.

Lemma contains_char_strip c s :
  Str.is_space c = false ->
  Str.contains (String c EmptyString) (Str.strip s) = Str.contains (String c EmptyString) s.
Proof.
  intros Hc. unfold Str.strip, Str.rstrip.
  by rewrite contains_char_rev, contains_char_lstrip, contains_char_rev, contains_char_lstrip.
Qed.

(** [split1] cuts at the first occurrence of the separator. *)
Lemma split1_spec c s :
  Str.contains (String c EmptyString) s = true ->
  s = (Str.split1 c s).1 +:+ String c (Str.split1 c s).2
  /\ Str.contains (String c EmptyString) (Str.split1 c s).1 = false.
Proof.
  induction s as [|a s IH]; [done|].
  rewrite contains_char_cons. cbn [Str.split1].
  destruct (decide (a = c)) as [->|Hne].
  - intros _. by split.
  - rewrite bool_decide_false by congruence. simpl. intros Hs.
    destruct (IH Hs) as [IH1 IH2].
    destruct (Str.split1 c s) as [k v]; simpl in *. split.
    + unfold String.app in *. simpl. by rewrite <- IH1.
    + destruct (decide (c = a)); [congruence|]. simpl. exact IH2.
Qed.

(** ** The configuration file *)

Lemma config_line_skip config line :
  Str.contains "=" line = false \/ Str.startswith "#" (Str.strip line) = true ->
  config_line config line = config.
Proof. unfold config_line. by intros [-> | ->]; rewrite ?andb_false_r. Qed.

Lemma config_line_store config line :
  Str.contains "=" line = true -> Str.startswith "#" (Str.strip line) = false ->
  exists key value,
    Str.strip line = key +:+ "=" +:+ value /\ Str.contains "=" key = false /\
    config_line config line = <[Str.strip key := Str.strip value]> config.
Proof.
  intros Heq Hc. unfold config_line. rewrite Heq, Hc. simpl.
  assert (Str.contains "=" (Str.strip line) = true) as Hs
    by (by rewrite contains_char_strip).
  destruct (split1_spec _ _ Hs) as [H1 H2].
  destruct (Str.split1 "=" (Str.strip line)) as [k v]; simpl in *.
  by exists k, v.
Qed.

Lemma foldl_config_line_keep (config : gmap string string) lines key :
  (forall l, l ∈ lines -> forall c, config_line c l !! key = c !! key) ->
  foldl config_line config lines !! key = config !! key.
Proof.
  revert config. induction lines as [|line lines IH]; intros config Hk; [done|].
  cbn [foldl]. rewrite IH.
  - apply Hk, list_elem_of_here.
  - intros l Hin. apply Hk. by apply list_elem_of_further.
Qed.

(** C6: a line with an equals sign that is not a comment is cut at its first
    equals sign and stored with both sides trimmed; any other line leaves the
    mapping as it is; the last line that stores a key decides its value; a
    key no line stores is absent; reading a text file changes nothing and
    returns the mapping of its lines; the example file yields exactly its
    four entries. *)
Theorem parse_config_file_rule :
  (forall config line,
      Str.contains "=" line = true ->
      Str.startswith "#" (Str.strip line) = false ->
      exists key value,
        Str.strip line = key +:+ "=" +:+ value /\
        Str.contains "=" key = false /\
        config_line config line = <[Str.strip key := Str.strip value]> config)
  /\ (forall config line,
      Str.contains "=" line = false \/ Str.startswith "#" (Str.strip line) = true ->
      config_line config line = config)
  /\ (forall before line after key value,
      (forall config, config_line config line = <[key := value]> config) ->
      (forall l, l ∈ after -> forall config, config_line config l !! key = config !! key) ->
      foldl config_line ∅ (before ++ line :: after) !! key = Some value)
  /\ (forall lines key,
      (forall l, l ∈ lines -> forall config, config_line config l !! key = config !! key) ->
      foldl config_line ∅ lines !! key = None)
  /\ (forall w file_path text,
      node_at (files w) (Path file_path) = Some (File (Text text)) ->
      parse_config_file file_path w = (Ok (foldl config_line ∅ (Str.lines text)), w))
  /\ parse_config_text example_config
     = {[ "tmin" := "100"; "tmax" := "300"; "tstep" := "100"; "binary" := "/opt/sim" ]}.
Proof.
  split_and!.
  - apply config_line_store.
  - apply config_line_skip.
  - intros before line after key value Hline Hafter.
    rewrite foldl_app. cbn [foldl].
    rewrite foldl_config_line_keep by done.
    rewrite Hline. apply lookup_insert_eq.
  - intros lines key Hk. by rewrite foldl_config_line_keep.
  - intros w file_path text Hnode.
    unfold parse_config_file, bind, read_text, ret. by rewrite Hnode.
  - by vm_compute.
Qed.

Lemma parse_config_file_rule_witness :
  exists key value,
    Str.strip " tmin = 100 " = key +:+ "=" +:+ value /\
    Str.contains "=" key = false /\
    config_line ∅ " tmin = 100 " = <[Str.strip key := Str.strip value]> ∅.
Proof.
  apply (proj1 parse_config_file_rule); reflexivity.
Defined.

(** ** Decimal text *)

Lemma rev_app_app s1 s2 s3 :
  String.rev_app s1 s2 +:+ s3 = String.rev_app s1 (s2 +:+ s3).
Proof. revert s2. induction s1 as [|a s1 IH]; intros s2; [done|]. cbn [String.rev_app]. by rewrite IH. Qed.

Lemma rev_app_rev_app s1 s2 s3 :
  String.rev_app (String.rev_app s1 s2) s3 = String.rev_app s2 (s1 +:+ s3).
Proof.
  revert s2 s3. induction s1 as [|a s1 IH]; intros s2 s3; [done|].
  cbn [String.rev_app]. by rewrite IH.
Qed.

Lemma str_rev_involutive s : String.rev (String.rev s) = s.
Proof.
  unfold String.rev. rewrite rev_app_rev_app. cbn [String.rev_app].
  induction s as [|a s IH]; [done|]. unfold String.app in *. simpl. by rewrite IH.
Qed.

Lemma str_app_nil_r s : s +:+ EmptyString = s.
Proof. induction s as [|a s IH]; [done|]. unfold String.app in *. simpl. by rewrite IH. Qed.

Lemma app_assoc_str s1 s2 s3 : (s1 +:+ s2) +:+ s3 = s1 +:+ (s2 +:+ s3).
Proof. induction s1 as [|a s1 IH]; [done|]. unfold String.app in *. simpl. by rewrite IH. Qed.

Lemma str_app_cons a s1 s2 : String a s1 +:+ s2 = String a (s1 +:+ s2).
Proof. done. Qed.

Lemma str_app_nil_l s : EmptyString +:+ s = s.
Proof. done. Qed.

Lemma length_app_str s1 s2 :
  String.length (s1 +:+ s2) = (String.length s1 + String.length s2)%nat.
Proof. induction s1 as [|a s1 IH]; [done|]. rewrite str_app_cons. simpl. by rewrite IH. Qed.

Lemma all_chars_rev_app P s1 s2 :
  Str.all_chars P (String.rev_app s1 s2) = Str.all_chars P s1 && Str.all_chars P s2.
Proof.
  revert s2. induction s1 as [|a s1 IH]; intros s2; [done|].
  cbn [String.rev_app]. rewrite IH. simpl.
  destruct (P a), (Str.all_chars P s1); simpl; try done.
Qed.

Lemma all_chars_app P s1 s2 :
  Str.all_chars P (s1 +:+ s2) = Str.all_chars P s1 && Str.all_chars P s2.
Proof.
  induction s1 as [|a s1 IH]; [done|]. rewrite str_app_cons. simpl. rewrite IH.
  by rewrite andb_assoc.
Qed.

Lemma lstrip_no_space s :
  Str.all_chars (fun c => negb (Str.is_space c)) s = true -> Str.lstrip s = s.
Proof.
  destruct s as [|a s]; [done|]. simpl. by destruct (Str.is_space a).
Qed.

(** Trimming leaves a text without white space as it is. *)
Lemma strip_no_space s :
  Str.all_chars (fun c => negb (Str.is_space c)) s = true -> Str.strip s = s.
Proof.
  intros Hs. unfold Str.strip, Str.rstrip.
  rewrite (lstrip_no_space s) by done.
  rewrite lstrip_no_space; [apply str_rev_involutive|].
  unfold String.rev. by rewrite all_chars_rev_app, Hs.
Qed.

Lemma is_digit_not_space c : Str.is_digit c = true -> Str.is_space c = false.
Proof.
  unfold Str.is_digit. destruct c as [[] [] [] [] [] [] [] []]; by vm_compute.
Qed.

Lemma all_digits_no_space s :
  Str.all_chars Str.is_digit s = true ->
  Str.all_chars (fun c => negb (Str.is_space c)) s = true.
Proof.
  induction s as [|a s IH]; [done|]. simpl.
  intros [Ha Hs]%andb_true_iff. by rewrite (is_digit_not_space a Ha), IH.
Qed.

Lemma take_digits_app t s :
  Str.all_chars Str.is_digit t = true ->
  Str.take_digits (t +:+ s)
  = ((Str.take_digits t).1 ++ (Str.take_digits s).1, (Str.take_digits s).2).
Proof.
  induction t as [|a t IH]; intros Ht.
  - rewrite str_app_nil_l. by destruct (Str.take_digits s).
  - simpl in Ht. apply andb_true_iff in Ht as [Ha Ht].
    rewrite str_app_cons. cbn [Str.take_digits].
    unfold Str.is_digit in Ha. destruct (Ascii.is_nat a) as [d|]; [|done].
    rewrite (IH Ht). by destruct (Str.take_digits t).
Qed.

Lemma pretty_N_char_digit x :
  (x < 10)%N ->
  Ascii.is_nat (pretty_N_char x) = Some (N.to_nat x).
Proof.
  intros Hx.
  assert (x = 0 \/ x = 1 \/ x = 2 \/ x = 3 \/ x = 4 \/ x = 5 \/ x = 6 \/ x = 7
          \/ x = 8 \/ x = 9)%N as H by lia.
  by repeat (destruct H as [-> | H]; [done|]); subst.
Qed.

(** The digits [pretty_N_go] puts in front of its accumulator. *)
Lemma pretty_N_go_digits x s :
  exists t,
    pretty_N_go x s = t +:+ s
    /\ Str.all_chars Str.is_digit t = true
    /\ ((0 < x)%N -> t <> EmptyString)
    /\ forall ds, foldl (fun acc d => (10 * acc + d)%N) 0%N ((Str.take_digits t).1 ++ ds)
                  = foldl (fun acc d => (10 * acc + d)%N) x ds.
Proof.
  revert s. induction (N.lt_wf_0 x) as [x _ IH]; intros s.
  destruct (decide (x = 0%N)) as [->|Hx].
  - exists EmptyString. rewrite pretty_N_go_0. split_and!; [done|done|lia|done].
  - rewrite pretty_N_go_step by lia.
    destruct (IH (x `div` 10)%N (N.div_lt x 10 ltac:(lia) ltac:(lia))
                (String (pretty_N_char (x `mod` 10)) s)) as (t & Ht & Hd & _ & Hv).
    pose proof (pretty_N_char_digit (x `mod` 10)%N (N.mod_lt x 10 ltac:(lia))) as Hc.
    exists (t +:+ String (pretty_N_char (x `mod` 10)) EmptyString).
    split_and!.
    + rewrite Ht. by rewrite app_assoc_str.
    + rewrite all_chars_app, Hd. simpl. unfold Str.is_digit. by rewrite Hc.
    + intros _. destruct t; done.
    + intros ds. rewrite take_digits_app by done.
      cbn [Str.take_digits fst snd]. rewrite Hc. cbn [fst snd].
      rewrite <- app_assoc. rewrite Hv. cbn [foldl app].
      rewrite N2Nat.id. f_equal.
      pose proof (N.div_mod x 10 ltac:(lia)). lia.
Qed.

Lemma take_digits_all t :
  Str.all_chars Str.is_digit t = true -> (Str.take_digits t).2 = EmptyString.
Proof.
  intros Ht. pose proof (take_digits_app t EmptyString Ht) as H.
  rewrite str_app_nil_r in H. by rewrite H.
Qed.

Lemma take_digits_nonempty t :
  Str.all_chars Str.is_digit t = true -> t <> EmptyString -> (Str.take_digits t).1 <> [].
Proof.
  destruct t as [|a t]; [done|]. simpl. unfold Str.is_digit.
  destruct (Ascii.is_nat a); [|done]. by destruct (Str.take_digits t).
Qed.

Lemma take_sign_digit t :
  Str.all_chars Str.is_digit t = true -> Str.take_sign t = (false, t).
Proof.
  destruct t as [|a t]; [done|]. simpl. intros [Ha _]%andb_true_iff.
  destruct a as [[] [] [] [] [] [] [] []]; done.
Qed.

(** [int] reads back a sign followed by digits. *)
Lemma int_of_text_digits (neg : bool) t :
  Str.all_chars Str.is_digit t = true -> t <> EmptyString ->
  int_of_text ((if neg then "-" else EmptyString) +:+ t)
  = Ok (signed neg (Str.of_digits (Str.take_digits t).1)).
Proof.
  intros Ht Hne. unfold int_of_text.
  rewrite strip_no_space.
  2:{ rewrite all_chars_app, (all_digits_no_space t Ht). by destruct neg. }
  assert (Str.take_sign ((if neg then "-" else EmptyString) +:+ t) = (neg, t)) as ->.
  { destruct neg; [done|]. rewrite str_app_nil_l. by apply take_sign_digit. }
  pose proof (take_digits_all t Ht) as H2.
  pose proof (take_digits_nonempty t Ht Hne) as H1.
  destruct (Str.take_digits t) as [[|d ds] r]; simpl in *; [done|]. by subst r.
Qed.

Lemma zeros_digits k : Str.all_chars Str.is_digit (zeros k) = true.
Proof. induction k; [done|]. simpl. by rewrite IHk. Qed.

Lemma zeros_value k ds :
  foldl (fun acc d => (10 * acc + d)%N) 0%N ((Str.take_digits (zeros k)).1 ++ ds)
  = foldl (fun acc d => (10 * acc + d)%N) 0%N ds.
Proof.
  induction k; [done|]. cbn [zeros Str.take_digits]. simpl.
  destruct (Str.take_digits (zeros k)). simpl in *. exact IHk.
Qed.

(** The decimal text of a natural number: digits that read back as it. *)
Lemma pretty_N_digits (x : N) :
  Str.all_chars Str.is_digit (pretty x) = true
  /\ pretty x <> EmptyString
  /\ forall k, Str.of_digits (Str.take_digits (zeros k +:+ pretty x)).1 = x.
Proof.
  assert (forall t, Str.all_chars Str.is_digit t = true ->
            Str.of_digits (Str.take_digits t).1 = x ->
            forall k, Str.of_digits (Str.take_digits (zeros k +:+ t)).1 = x) as Hpad.
  { intros t Ht Hv k. rewrite take_digits_app by apply zeros_digits.
    cbn [fst]. unfold Str.of_digits in *. by rewrite zeros_value. }
  unfold pretty, pretty_N. case_decide as Hx.
  - subst x. split_and!; [done|done|]. by apply Hpad.
  - destruct (pretty_N_go_digits x EmptyString) as (t & Ht & Hd & Hne & Hv).
    rewrite str_app_nil_r in Ht. rewrite Ht.
    split_and!; [done|apply Hne; lia|].
    apply Hpad; [done|]. specialize (Hv []). rewrite List.app_nil_r in Hv.
    exact Hv.
Qed.

Lemma int_of_text_format_d n : int_of_text (format_d n) = Ok n.
Proof.
  unfold format_d, pretty, pretty_Z.
  destruct n as [|p|p].
  - done.
  - destruct (pretty_N_digits (N.pos p)) as (Hd & Hne & Hv).
    pose proof (int_of_text_digits false _ Hd Hne) as H.
    rewrite str_app_nil_l in H. unfold pretty, pretty_positive. rewrite H.
    specialize (Hv O). cbn [zeros] in Hv. rewrite str_app_nil_l in Hv. by rewrite Hv.
  - destruct (pretty_N_digits (N.pos p)) as (Hd & Hne & Hv).
    pose proof (int_of_text_digits true _ Hd Hne) as H.
    unfold pretty, pretty_positive. rewrite H.
    specialize (Hv O). cbn [zeros] in Hv. rewrite str_app_nil_l in Hv. by rewrite Hv.
Qed.

Lemma int_of_text_format_04d n : int_of_text (format_04d n) = Ok n.
Proof.
  unfold format_04d.
  destruct (pretty_N_digits (Z.abs_N n)) as (Hd & Hne & Hv).
  set (digits := pretty (Z.abs_N n)) in *.
  assert (forall k, Str.all_chars Str.is_digit (zeros k +:+ digits) = true) as Hall
    by (intros k; by rewrite all_chars_app, zeros_digits, Hd).
  assert (forall k, zeros k +:+ digits <> EmptyString) as Hnonempty.
  { intros k. destruct k; [by rewrite str_app_nil_l|done]. }
  destruct (n <? 0) eqn:Hn.
  - apply Z.ltb_lt in Hn.
    pose proof (int_of_text_digits true _ (Hall (3 - String.length digits)%nat)
                  (Hnonempty _)) as H.
    change (String "-" (zeros (3 - String.length digits) +:+ digits))
      with ("-" +:+ (zeros (3 - String.length digits) +:+ digits)).
    rewrite H, Hv. unfold signed. f_equal. lia.
  - apply Z.ltb_ge in Hn.
    pose proof (int_of_text_digits false _ (Hall (4 - String.length digits)%nat)
                  (Hnonempty _)) as H.
    rewrite str_app_nil_l in H. rewrite H, Hv. unfold signed. f_equal. lia.
Qed.

Lemma format_04d_inj n1 n2 : format_04d n1 = format_04d n2 -> n1 = n2.
Proof.
  intros H. pose proof (int_of_text_format_04d n1) as H1.
  rewrite H, int_of_text_format_04d in H1. congruence.
Qed.

(** ** Rounding *)

Lemma py_round_proper x y : (x == y)%Q -> py_round x = py_round y.
Proof.
  intros Hxy. unfold py_round.
  assert (Qfloor x = Qfloor y) as -> by (by apply Qfloor_comp).
  assert (((x - inject_Z (Qfloor y)) ?= (1 # 2)) = ((y - inject_Z (Qfloor y)) ?= (1 # 2)))%Q
    as -> by (by rewrite Hxy).
  done.
Qed.

Lemma Qfloor_half n : Qfloor (inject_Z n + (1 # 2)) = n.
Proof.
  unfold Qfloor, inject_Z, Qplus. simpl.
  symmetry. apply (Z.div_unique _ 2 n 1); lia.
Qed.

(** A tie goes to the even neighbour. *)
Lemma py_round_half n :
  py_round (inject_Z n + (1 # 2)) = if Z.even n then n else n + 1.
Proof.
  unfold py_round. rewrite Qfloor_half.
  assert (((inject_Z n + (1 # 2) - inject_Z n) ?= (1 # 2))%Q = Eq) as ->; [|done].
  apply Qeq_alt. ring.
Qed.

(** The result is a nearest integer. *)
Lemma py_round_nearest x :
  (inject_Z (py_round x) - (1 # 2) <= x /\ x <= inject_Z (py_round x) + (1 # 2))%Q.
Proof.
  unfold py_round.
  pose proof (Qfloor_le x) as Hlo. pose proof (Qlt_floor x) as Hhi.
  set (f := Qfloor x) in *.
  assert (inject_Z (f + 1) = inject_Z f + 1)%Q as Hf1 by apply inject_Z_plus.
  rewrite Hf1 in Hhi.
  destruct ((x - inject_Z f) ?= (1 # 2))%Q eqn:Hc.
  - apply Qeq_alt in Hc. destruct (Z.even f); rewrite ?Hf1; lra.
  - apply Qlt_alt in Hc. lra.
  - apply Qgt_alt in Hc. rewrite Hf1. lra.
Qed.

(** ** The file system *)

Lemma relative_to_Some (d p r : path) : relative_to d p = Some r <-> p = d ++ r.
Proof.
  revert p. induction d as [|a d IH]; intros p; simpl.
  - split; congruence.
  - destruct p as [|b p]; [split; [done|intros [=]]|].
    destruct (decide (a = b)) as [->|Hne].
    + rewrite IH. split; [by intros ->|by intros [= ->]].
    + split; [done|intros [=]; congruence].
Qed.

Lemma relative_to_app (d r : path) : relative_to d (d ++ r) = Some r.
Proof. by apply relative_to_Some. Qed.

Lemma elem_of_subtree (d : path) (fs : gmap path node) (r : path) (n : node) :
  (r, n) ∈ subtree d fs <-> r <> [] /\ fs !! (d ++ r) = Some n.
Proof.
  unfold subtree. rewrite list_elem_of_omap. split.
  - intros ([p n'] & Hin & Hr). apply elem_of_map_to_list in Hin.
    destruct (relative_to d p) as [[|c r']|] eqn:Hrel; simplify_eq.
    apply relative_to_Some in Hrel as ->. done.
  - intros [Hr Hl]. exists (d ++ r, n). split; [by apply elem_of_map_to_list|].
    rewrite relative_to_app. by destruct r.
Qed.

Lemma NoDup_subtree (d : path) (fs : gmap path node) : NoDup (subtree d fs).*1.
Proof.
  unfold subtree.
  pose proof (NoDup_fst_map_to_list fs) as Hnd.
  induction (map_to_list fs) as [|[p n] l IH]; [constructor|].
  apply NoDup_cons in Hnd as [Hp Hnd]. cbn [omap list_omap].
  destruct (relative_to d p) as [[|c r]|] eqn:Hrel; [by apply IH..| |by apply IH].
  cbn [fmap list_fmap fst]. apply NoDup_cons. split; [|by apply IH].
  intros Hin. apply Hp.
  apply list_elem_of_fmap in Hin as ([r' n'] & Heq & Hin). simpl in Heq. subst r'.
  apply list_elem_of_omap in Hin as ([p' n''] & Hin & Hr).
  destruct (relative_to d p') as [[|c' r']|] eqn:Hrel'; simplify_eq.
  apply relative_to_Some in Hrel, Hrel'. subst.
  apply list_elem_of_fmap. by exists (d ++ c :: r, n').
Qed.

(** The paths [rglob] yields: those strictly below the directory. *)
Lemma elem_of_rglob (d : path) (w : world) (q : path) :
  q ∈ match rglob d w with (Ok l, _) => l | _ => [] end
  <-> exists r, r <> [] /\ q = d ++ r /\ is_Some (files w !! q).
Proof.
  unfold rglob. rewrite list_elem_of_fmap. split.
  - intros ([r n] & -> & Hin). apply elem_of_subtree in Hin as [Hr Hl].
    exists r. simpl. rewrite Hl. eauto.
  - intros (r & Hr & -> & [n Hn]). exists (r, n). split; [done|].
    by apply elem_of_subtree.
Qed.

Lemma NoDup_rglob (d : path) (w : world) :
  NoDup (match rglob d w with (Ok l, _) => l | _ => [] end).
Proof.
  unfold rglob.
  assert (map (fun '(r, _) => d ++ r) (subtree d (files w))
          = (app d) <$> (subtree d (files w)).*1) as ->.
  { rewrite <- list_fmap_compose. apply list_fmap_ext. by intros ? [??]. }
  apply NoDup_fmap_2; [apply _|apply NoDup_subtree].
Qed.

(** ** Loops *)

Lemma bind_ok {A B} (m : M A) (k : A -> M B) w a w' :
  m w = (Ok a, w') -> bind m k w = k a w'.
Proof. unfold bind. by intros ->. Qed.

Lemma bind_raise {A B} (m : M A) (k : A -> M B) w e w' :
  m w = (Raise e, w') -> bind m k w = (Raise e, w').
Proof. unfold bind. by intros ->. Qed.

(** A loop whose body never raises runs to its end. *)
Lemma for_each_ok {A} (l : list A) (body : A -> M unit) (step : A -> world -> world) w :
  (forall a w, body a w = (Ok tt, step a w)) ->
  for_each l body w = (Ok tt, foldl (fun w a => step a w) w l).
Proof.
  intros Hbody. revert w. induction l as [|a l IH]; intros w; [done|].
  cbn [for_each foldl]. rewrite (bind_ok _ _ _ _ _ (Hbody a w)). apply IH.
Qed.

(** ** Substituting the temperature *)

(** The loop body, case by case. *)
Lemma substitute_eq t (p : path) w :
  substitute t p w =
  match node_at (files w) p with
  | Some (File (Text text)) =>
      if bool_decide (suffix p ∈ skipped_suffixes) then (Ok tt, w)
      else if decide (new_text t text <> text)
           then (Ok tt, World (<[p := File (Text (new_text t text))]> (files w))
                              (written w ++ [p]) (started w))
           else (Ok tt, w)
  | _ => (Ok tt, w)
  end.
Proof.
  unfold substitute, bind, is_file, try_except, read_text, write_text, ret, new_text.
  destruct (node_at (files w) p) as [[[text|raw]|]|] eqn:Hn; simpl;
    try (destruct (bool_decide (suffix p ∈ skipped_suffixes)); simpl);
    rewrite ?Hn; try done.
  case_decide; simpl; by rewrite ?Hn.
Qed.

Lemma substitute_ok t (p : path) w : (substitute t p w).1 = Ok tt.
Proof.
  rewrite substitute_eq.
  destruct (node_at (files w) p) as [[[text|raw]|]|]; try done.
  destruct (bool_decide _); [done|]. by case_decide.
Qed.

Lemma substitute_started t (p : path) w : started (substitute t p w).2 = started w.
Proof.
  rewrite substitute_eq.
  destruct (node_at (files w) p) as [[[text|raw]|]|]; try done.
  destruct (bool_decide _); [done|]. by case_decide.
Qed.

Lemma alter_id_at (f : node -> node) (p : path) (fs : gmap path node) :
  (forall n, fs !! p = Some n -> f n = n) -> alter f p fs = fs.
Proof.
  intros Hf. apply map_eq. intros q. destruct (decide (p = q)) as [<-|Hne].
  - rewrite lookup_alter_eq. destruct (fs !! p) as [n|] eqn:Hn; [|done].
    simpl. by rewrite (Hf n).
  - by rewrite lookup_alter_ne.
Qed.

Lemma substitute_files t (p : path) w :
  p <> [] -> files (substitute t p w).2 = alter (substitute_node t p) p (files w).
Proof.
  intros Hp. rewrite substitute_eq. unfold node_at.
  destruct (decide (p = [])); [done|].
  destruct (files w !! p) as [[[text|raw]|]|] eqn:Hn; simpl.
  - destruct (bool_decide (suffix p ∈ skipped_suffixes)) eqn:Hsuf; simpl.
    { symmetry. apply alter_id_at. intros n' Hn'. simplify_eq. simpl. by rewrite Hsuf. }
    destruct (decide (new_text t text <> text)) as [Hch|Hch]; simpl.
    + apply map_eq. intros q. destruct (decide (p = q)) as [<-|Hne].
      * rewrite lookup_insert_eq, lookup_alter_eq, Hn. simpl. by rewrite Hsuf.
      * by rewrite lookup_insert_ne, lookup_alter_ne.
    + apply dec_stable in Hch. symmetry. apply alter_id_at.
      intros n' Hn'. simplify_eq. simpl. by rewrite Hsuf, Hch.
  - symmetry. apply alter_id_at. intros n' Hn'. by simplify_eq.
  - symmetry. apply alter_id_at. intros n' Hn'. by simplify_eq.
  - symmetry. apply alter_id_at. intros n' Hn'. by simplify_eq.
Qed.

Lemma substitute_written t (p : path) w :
  p <> [] ->
  written (substitute t p w).2
  = written w ++ (if rewrites t (files w) p then [p] else []).
Proof.
  intros Hp. rewrite substitute_eq. unfold node_at, rewrites.
  destruct (decide (p = [])); [done|].
  destruct (files w !! p) as [[[text|raw]|]|] eqn:Hn; simpl;
    rewrite ?List.app_nil_r; try done.
  destruct (bool_decide (suffix p ∈ skipped_suffixes)); simpl;
    rewrite ?List.app_nil_r; try done.
  destruct (decide (new_text t text <> text)) as [Hch|Hch]; simpl.
  - by rewrite bool_decide_true.
  - rewrite bool_decide_false by done. by rewrite List.app_nil_r.
Qed.

Lemma rewrites_alter_ne (t : Q) (f : node -> node) (p q : path) (fs : gmap path node) :
  p <> q -> rewrites t (alter f p fs) q = rewrites t fs q.
Proof. intros Hne. unfold rewrites. by rewrite lookup_alter_ne. Qed.

Lemma filter_ext_in {A} (f g : A -> bool) (l : list A) :
  (forall a, a ∈ l -> f a = g a) ->
  filter (fun a => f a = true) l = filter (fun a => g a = true) l.
Proof.
  induction l as [|a l IH]; intros Hfg; [done|].
  rewrite !filter_cons, IH by (intros; apply Hfg; by apply list_elem_of_further).
  rewrite (Hfg a) by apply list_elem_of_here. done.
Qed.

(** The loop over the paths: each path is visited once and only its own
    node changes. *)
Lemma substitute_loop (t : Q) (paths : list path) (w : world) :
  NoDup paths -> (forall p, p ∈ paths -> p <> []) ->
  let w' := foldl (fun w p => (substitute t p w).2) w paths in
  for_each paths (substitute t) w = (Ok tt, w')
  /\ started w' = started w
  /\ (forall q, files w' !! q
               = if bool_decide (q ∈ paths)
                 then substitute_node t q <$> files w !! q
                 else files w !! q)
  /\ written w' = written w ++ filter (fun p => rewrites t (files w) p = true) paths.
Proof.
  intros Hnd Hne. split.
  { apply for_each_ok. intros p w0. pose proof (substitute_ok t p w0).
    by destruct (substitute t p w0) as [[] ?]; simplify_eq/=. }
  revert w. induction paths as [|p paths IH]; intros w.
  - simpl. split_and!; [done|done|]. by rewrite List.app_nil_r.
  - apply NoDup_cons in Hnd as [Hp Hnd]. cbn [foldl].
    destruct (IH Hnd (fun q Hq => Hne q (list_elem_of_further _ _ _ Hq))
                (substitute t p w).2) as (Hs & Hf & Hw).
    pose proof (Hne p (list_elem_of_here _ _)) as Hp0.
    split_and!.
    + by rewrite Hs, substitute_started.
    + intros q. rewrite Hf, substitute_files by done.
      destruct (decide (q = p)) as [->|Hqp].
      * rewrite (bool_decide_false (p ∈ paths)) by done.
        rewrite bool_decide_true by apply list_elem_of_here.
        by rewrite lookup_alter_eq.
      * rewrite lookup_alter_ne by done.
        destruct (decide (q ∈ paths)) as [Hin|Hnin].
        -- rewrite !bool_decide_true; [done|by apply list_elem_of_further|done].
        -- rewrite !bool_decide_false; [done| |done].
           by intros [->|?]%elem_of_cons.
    + rewrite Hw, substitute_written, substitute_files by done.
      rewrite <- List.app_assoc. f_equal.
      rewrite filter_cons.
      assert (filter (fun q => rewrites t (alter (substitute_node t p) p (files w)) q = true) paths
              = filter (fun q => rewrites t (files w) q = true) paths) as ->.
      { apply filter_ext_in. intros q Hq.
        rewrite rewrites_alter_ne; [done|]. by intros ->. }
      by destruct (rewrites t (files w) p); case_decide.
Qed.

(** ** Replacing a token *)

Section Replace.

Variables old new : string.

(** The replacement is not empty and shares no character with the
    token. *)
Hypothesis old_nonempty : old <> EmptyString.
Hypothesis new_nonempty : new <> EmptyString.
Hypothesis disjoint :
  Str.all_chars (fun c => negb (Str.contains (String c EmptyString) new)) old = true.






End Replace.

Lemma all_chars_weaken (P Q : ascii -> bool) s :
  (forall c, P c = true -> Q c = true) ->
  Str.all_chars P s = true -> Str.all_chars Q s = true.
Proof.
  intros HPQ. induction s as [|a s IH]; [done|]. simpl.
  intros [Ha Hs]%andb_true_iff. by rewrite (HPQ a Ha), IH.
Qed.

Lemma not_contains_char (P : ascii -> bool) c s :
  Str.all_chars P s = true -> P c = false ->
  Str.contains (String c EmptyString) s = false.
Proof.
  intros Hs Hc. induction s as [|a s IH]; [done|].
  simpl in Hs. apply andb_true_iff in Hs as [Ha Hs].
  rewrite contains_char_cons, IH by done.
  rewrite bool_decide_false; [done|]. intros ->. congruence.
Qed.




Lemma below_spec (d q : path) : below d q = true <-> exists r, r <> [] /\ q = d ++ r.
Proof.
  unfold below. destruct (relative_to d q) as [[|c r]|] eqn:Hrel.
  - apply relative_to_Some in Hrel. split; [done|].
    intros (r & Hr & ->). apply app_inv_head in Hrel. by subst.
  - apply relative_to_Some in Hrel. split; [|done]. intros _. by exists (c :: r).
  - split; [done|]. intros (r & _ & ->). by rewrite relative_to_app in Hrel.
Qed.

Lemma below_nonempty (d q : path) : below d q = true -> q <> [].
Proof. intros (r & Hr & ->)%below_spec. by destruct d, r. Qed.

(** The substitution over a directory: it never raises, starts nothing, and
    makes of each node below the directory what [substitute_node] says. *)
Lemma replace_temperature_strings_spec (d : path) (t : Q) (w : world) :
  exists w',
    replace_temperature_strings d t w = (Ok tt, w')
    /\ started w' = started w
    /\ (forall q, files w' !! q
                 = if below d q then substitute_node t q <$> files w !! q
                   else files w !! q)
    /\ (forall q, q ∈ written w' <->
                  q ∈ written w \/ (below d q = true /\ rewrites t (files w) q = true)).
Proof.
  pose proof (elem_of_rglob d w) as Hin. pose proof (NoDup_rglob d w) as Hnd.
  unfold replace_temperature_strings, bind.
  destruct (rglob d w) as [[paths|e] w0] eqn:Hr; [|by unfold rglob in Hr].
  assert (w0 = w) as -> by (unfold rglob in Hr; congruence).
  assert (forall p, p ∈ paths -> p <> []) as Hne.
  { intros p (r & Hrn & -> & _)%Hin. by destruct d, r. }
  destruct (substitute_loop t paths w Hnd Hne) as (Hrun & Hs & Hf & Hw).
  eexists. split_and!; [exact Hrun|exact Hs| |].
  - intros q. rewrite Hf. destruct (below d q) eqn:Hb.
    + destruct (decide (q ∈ paths)) as [Hq|Hq].
      * by rewrite bool_decide_true.
      * rewrite bool_decide_false by done.
        destruct (files w !! q) as [n|] eqn:Hn; [|done].
        exfalso. apply Hq, Hin. apply below_spec in Hb as (r & ? & ->).
        exists r. by rewrite Hn.
    + rewrite bool_decide_false; [done|].
      intros (r & Hrn & -> & _)%Hin.
      assert (below d (d ++ r) = true) by (apply below_spec; eauto). congruence.
  - intros q. rewrite Hw, elem_of_app, list_elem_of_filter.
    split; (intros [?|[H1 H2]]; [by left|right]).
    + split; [|done]. apply Hin in H2 as (r & ? & -> & _). apply below_spec. eauto.
    + split; [done|]. apply Hin. apply below_spec in H1 as (r & ? & ->).
      exists r. split_and!; [done|done|].
      unfold rewrites in H2. by destruct (files w !! (d ++ r)).
Qed.



(** ** The workspace name and the rounding *)

Lemma length_zeros k : String.length (zeros k) = k.
Proof. induction k; [done|]. simpl. by rewrite IHk. Qed.

Lemma format_d_nonneg n : 0 <= n -> format_d n = pretty (Z.abs_N n).
Proof. intros Hn. destruct n as [|p|p]; [done|done|lia]. Qed.

(** C7: the workspace name is the prefix and the four-wide zero-padded
    decimal text of the rounded temperature; it depends on the temperature
    only, through its value; 310.4 gives T_0310; two temperatures get the
    same name exactly when they round to the same integer. *)
Theorem folder_name_rule :
  (forall t, folder_name t = "T_" +:+ format_04d (py_round t))
  /\ (forall n, 0 <= n ->
        format_04d n = zeros (4 - String.length (format_d n)) +:+ format_d n
        /\ String.length (format_04d n) = Nat.max 4 (String.length (format_d n)))
  /\ folder_name (3104 # 10) = "T_0310"
  /\ (forall t1 t2, (t1 == t2)%Q -> folder_name t1 = folder_name t2)
  /\ (forall t1 t2, folder_name t1 = folder_name t2 <-> py_round t1 = py_round t2).
Proof.
  split_and!.
  - done.
  - intros n Hn. rewrite (format_d_nonneg n Hn). unfold format_04d.
    apply Z.ltb_ge in Hn. rewrite Hn. split; [done|].
    rewrite length_app_str, length_zeros. lia.
  - by vm_compute.
  - intros t1 t2 Ht. unfold folder_name. by rewrite (py_round_proper t1 t2 Ht).
  - intros t1 t2. unfold folder_name. split.
    + intros H. apply format_04d_inj. by simplify_eq/=.
    + by intros ->.
Qed.

Lemma folder_name_rule_witness :
  folder_name (3104 # 10) = folder_name (6199 # 20)
  /\ String.length (format_04d 310) = Nat.max 4 (String.length (format_d 310)).
Proof.
  split.
  - apply (proj2 (proj2 (proj2 (proj2 folder_name_rule)))). reflexivity.
  - apply (proj1 (proj2 folder_name_rule)). lia.
Defined.

(** C10: rounding sends a tie to the even neighbour (310.5 to 310, 311.5
    to 312), its result is a nearest integer, and the integer in the
    workspace name is the integer put in place of TEMP in the files. *)
Theorem rounding_rule :
  py_round (621 # 2) = 310
  /\ py_round (623 # 2) = 312
  /\ (forall n : Z, py_round (inject_Z n + (1 # 2)) = if Z.even n then n else n + 1)
  /\ (forall x, (inject_Z (py_round x) - (1 # 2) <= x
                /\ x <= inject_Z (py_round x) + (1 # 2))%Q)
  /\ (forall t, exists n,
        n = py_round t
        /\ folder_name t = "T_" +:+ format_04d n
        /\ int_of_text (format_04d n) = Ok n
        /\ int_of_text (format_d n) = Ok n
        /\ forall (p : path) w text,
             node_at (files w) p = Some (File (Text text)) ->
             suffix p ∉ skipped_suffixes ->
             node_at (files (substitute t p w).2) p
             = Some (File (Text (Str.replace "TEMP" (format_d n) text)))).
Proof.
  split_and!.
  - by vm_compute.
  - by vm_compute.
  - apply py_round_half.
  - apply py_round_nearest.
  - intros t. exists (py_round t).
    split_and!; [done|done|apply int_of_text_format_04d|apply int_of_text_format_d|].
    intros p w text Hn Hsuf.
    assert (p <> []) as Hp by (intros ->; done).
    unfold node_at in *. destruct (decide (p = [])); [done|].
    rewrite substitute_files, lookup_alter_eq, Hn by done. simpl.
    by rewrite bool_decide_false.
Qed.

Lemma rounding_rule_witness :
  node_at (files (substitute (621 # 2) ["T_0310"; "input.dat"]
                    (World example_workspace [] [])).2) ["T_0310"; "input.dat"]
  = Some (File (Text "T=310 K")).
Proof.
  destruct (proj2 (proj2 (proj2 (proj2 rounding_rule))) (621 # 2))
    as (n & -> & _ & _ & _ & H).
  apply (H ["T_0310"; "input.dat"] (World example_workspace [] []) "T=TEMP K").
  - reflexivity.
  - intros Hin. apply (bool_decide_eq_true_2 _) in Hin. vm_compute in Hin. discriminate Hin.
Defined.

(** ** The resolved configuration *)

Lemma getattr_here k v (r : namespace) : getattr ((k, v) :: r) k = Ok v.
Proof. simpl. by destruct (decide (k = k)). Qed.

Lemma getattr_later k k' v (r : namespace) :
  k' <> k -> getattr ((k', v) :: r) k = getattr r k.
Proof. intros Hne. simpl. by destruct (decide (k' = k)). Qed.

Lemma setattr_here k v v' (r : namespace) :
  setattr ((k, v') :: r) k v = (k, v) :: r.
Proof. simpl. by destruct (decide (k = k)). Qed.

Lemma setattr_later k k' v v' (r : namespace) :
  k' <> k -> setattr ((k', v') :: r) k v = (k', v') :: setattr r k v.
Proof. intros Hne. simpl. by destruct (decide (k' = k)). Qed.

Ltac attr :=
  repeat first
    [ rewrite getattr_here
    | rewrite getattr_later by discriminate
    | rewrite setattr_here
    | rewrite setattr_later by discriminate ].

Ltac in_list := repeat first [apply list_elem_of_here | apply list_elem_of_further].









(** C3: a step given in the configuration file goes through [int], not
    through [float] as the step of the command line does: the text 2.5 is
    accepted on the command line and for the minimum in the file, but as
    the step in the file it ends the run with a ValueError before anything
    is started; and a file that leaves the step out truncates the step of
    the command line. *)
Theorem config_file_step_is_int
    (spawn : string -> path -> gmap path node -> option (data * Z)) (platform : string) :
  parse_args [("tstep", "2.5")] ≫= (fun args => getattr args "tstep") = Ok (VFloat (5 # 2))
  /\ main spawn platform [("file", "sweep.cfg")] fractional_step_world
     = (Raise ValueError, fractional_step_world)
  /\ (resolve [("file", "range.cfg")] fractional_step_world).1
       ≫= (fun args => getattr args "tmin") = Ok (VFloat (3 # 2))
  /\ (resolve [("tstep", "2.5"); ("file", "range.cfg")] fractional_step_world).1
       ≫= (fun args => getattr args "tstep") = Ok (VInt 2).
Proof. split_and!; by vm_compute. Qed.

(** ** The step-mode mesh *)





(** ** What every step of a run keeps *)

Lemma keeps_files_same {A} (m : M A) :
  (forall w, files (m w).2 = files w) -> keeps_files m.
Proof. intros H w p d _ Hp. rewrite H. eauto. Qed.

Lemma keeps_files_bind {A B} (m : M A) (k : A -> M B) :
  keeps_files m -> (forall a, keeps_files (k a)) -> keeps_files (bind m k).
Proof.
  intros Hm Hk w p d Hne Hp. unfold bind.
  destruct (Hm w p d Hne Hp) as [d' Hd'].
  destruct (m w) as [[a|e] w1]; simpl in *; [|eauto].
  by apply (Hk a w1 p d').
Qed.

Lemma keeps_files_for_each {A} (l : list A) (body : A -> M unit) :
  (forall a, keeps_files (body a)) -> keeps_files (for_each l body).
Proof.
  intros Hb. induction l as [|a l IH]; [by apply keeps_files_same|].
  cbn [for_each]. apply keeps_files_bind; [apply Hb|by intros _].
Qed.

Lemma starts_nothing_bind {A B} (m : M A) (k : A -> M B) :
  starts_nothing m -> (forall a, starts_nothing (k a)) -> starts_nothing (bind m k).
Proof.
  intros Hm Hk w. unfold bind. specialize (Hm w).
  destruct (m w) as [[a|e] w1]; simpl in *; [|done].
  by rewrite Hk.
Qed.

Lemma starts_nothing_for_each {A} (l : list A) (body : A -> M unit) :
  (forall a, starts_nothing (body a)) -> starts_nothing (for_each l body).
Proof.
  intros Hb. induction l as [|a l IH]; [done|].
  cbn [for_each]. apply starts_nothing_bind; [apply Hb|by intros _].
Qed.

Lemma node_at_nonempty (fs : gmap path node) (p : path) :
  p <> [] -> node_at fs p = fs !! p.
Proof. intros Hp. unfold node_at. by destruct (decide (p = [])). Qed.

Lemma keeps_files_mkdir (p : path) : keeps_files (mkdir_exist_ok p).
Proof.
  intros w q d Hq Hd. unfold mkdir_exist_ok.
  destruct (node_at (files w) p) as [[d0|]|] eqn:Hp; simpl; eauto.
  destruct (node_at (files w) (removelast p)) as [[d0|]|]; simpl; eauto.
  rewrite lookup_insert_ne; [eauto|]. intros ->.
  unfold node_at in Hp. destruct (decide (q = [])); congruence.
Qed.

Lemma keeps_files_copy2 (src dst : path) : keeps_files (copy2 src dst).
Proof.
  intros w q d Hq Hd. unfold copy2.
  destruct (node_at (files w) src) as [[d0|]|]; simpl; eauto.
  destruct (decide (src = dst)); simpl; eauto.
  destruct (node_at (files w) dst) as [[d1|]|] eqn:Hdst; simpl; eauto.
  - destruct (decide (dst = q)) as [->|]; [rewrite lookup_insert_eq|rewrite lookup_insert_ne]; eauto.
  - destruct (decide (dst = q)) as [->|]; [rewrite lookup_insert_eq|rewrite lookup_insert_ne]; eauto.
Qed.

Lemma existsb_false {A} (f : A -> bool) (l : list A) (a : A) :
  existsb f l = false -> a ∈ l -> f a = false.
Proof.
  intros He Ha. apply not_true_is_false. intros Hf.
  assert (existsb f l = true) as Ht; [|congruence].
  apply existsb_exists. exists a. split; [by apply list_elem_of_In|done].
Qed.

Lemma keeps_files_copytree (src dst : path) : keeps_files (copytree src dst).
Proof.
  intros w q d Hq Hd. unfold copytree.
  destruct (node_at (files w) dst) as [[d0|]|] eqn:Hdst; simpl; eauto.
  all: destruct (relative_to src dst) as [[|c r]|]; simpl; eauto.
  all: try (destruct (existsb is_file_entry _); simpl; by eauto).
  all: destruct (existsb (conflict (files w) dst) (subtree src (files w))) eqn:Hc;
    simpl; eauto.
  all: pose proof (fun e => existsb_false _ _ e Hc) as Hno; clear Hc.
  all: induction (subtree src (files w)) as [|e es IH]; simpl.
  all: try (apply IH; intros e' He'; apply Hno; by apply list_elem_of_further).
  - rewrite lookup_insert_ne; [eauto|]. intros ->.
    rewrite node_at_nonempty in Hdst by done. congruence.
  - specialize (Hno e (list_elem_of_here _ _)) as He.
    destruct (decide (dst ++ e.1 = q)) as [Heq|Hne].
    + rewrite Heq, lookup_insert_eq. unfold conflict in He. rewrite Heq, Hd in He.
      destruct (e.2); [eauto|done].
    + rewrite lookup_insert_ne by done.
      apply IH. intros e' He'. apply Hno. by apply list_elem_of_further.
  - rewrite lookup_insert_ne; [eauto|]. intros ->.
    rewrite node_at_nonempty in Hdst by done. congruence.
  - specialize (Hno e (list_elem_of_here _ _)) as He.
    destruct (decide (dst ++ e.1 = q)) as [Heq|Hne].
    + rewrite Heq, lookup_insert_eq. unfold conflict in He. rewrite Heq, Hd in He.
      destruct (e.2); [eauto|done].
    + rewrite lookup_insert_ne by done.
      apply IH. intros e' He'. apply Hno. by apply list_elem_of_further.
Qed.

Lemma keeps_files_replace_temperature_strings (d : path) (t : Q) :
  keeps_files (replace_temperature_strings d t).
Proof.
  intros w q dat Hq Hd.
  destruct (replace_temperature_strings_spec d t w) as (w' & -> & _ & Hf & _).
  simpl. rewrite Hf, Hd.
  destruct (below d q); simpl; [|eauto].
  destruct dat as [text|raw]; simpl; [|eauto].
  destruct (bool_decide _); eauto.
Qed.

Lemma keeps_files_open_w (p : path) : keeps_files (open_w p).
Proof.
  intros w q d Hq Hd. unfold open_w.
  destruct (node_at (files w) p) as [[d0|]|]; simpl; eauto.
  all: destruct (decide (p = q)) as [->|];
    [rewrite lookup_insert_eq|rewrite lookup_insert_ne]; eauto.
Qed.

Lemma starts_nothing_copytree (src dst : path) : starts_nothing (copytree src dst).
Proof.
  intros w. unfold copytree.
  destruct (node_at (files w) dst) as [[d0|]|]; simpl; try done.
  all: destruct (relative_to src dst) as [[|c r]|]; simpl; try done.
  all: by destruct (existsb _ _).
Qed.

Lemma starts_nothing_copy2 (src dst : path) : starts_nothing (copy2 src dst).
Proof.
  intros w. unfold copy2.
  destruct (node_at (files w) src) as [[d0|]|]; simpl; try done.
  destruct (decide (src = dst)); simpl; try done.
  by destruct (node_at (files w) dst) as [[d1|]|].
Qed.

Lemma starts_nothing_mkdir (p : path) : starts_nothing (mkdir_exist_ok p).
Proof.
  intros w. unfold mkdir_exist_ok.
  destruct (node_at (files w) p) as [[d0|]|]; simpl; try done.
  by destruct (node_at (files w) (removelast p)) as [[d0|]|].
Qed.

Lemma starts_nothing_iterdir (d : path) : starts_nothing (iterdir d).
Proof. intros w. unfold iterdir. by destruct (node_at (files w) d) as [[d0|]|]. Qed.

Lemma starts_nothing_replace_temperature_strings (d : path) (t : Q) :
  starts_nothing (replace_temperature_strings d t).
Proof.
  intros w. by destruct (replace_temperature_strings_spec d t w) as (w' & -> & Hs & _).
Qed.

Lemma keeps_files_iterdir (d : path) : keeps_files (iterdir d).
Proof.
  apply keeps_files_same. intros w. unfold iterdir.
  by destruct (node_at (files w) d) as [[d0|]|].
Qed.

(** Making a workspace keeps the files there are and starts nothing. *)
Lemma keeps_files_materialize (t : Q) (base : string) : keeps_files (materialize t base).
Proof.
  unfold materialize.
  apply keeps_files_bind; [apply keeps_files_mkdir|intros _].
  apply keeps_files_bind; [apply keeps_files_iterdir|intros items].
  apply keeps_files_bind.
  { apply keeps_files_for_each. intros item.
    apply keeps_files_bind; [by apply keeps_files_same|].
    intros []; [apply keeps_files_copytree|apply keeps_files_copy2]. }
  intros _. apply keeps_files_bind; [apply keeps_files_replace_temperature_strings|].
  intros _. by apply keeps_files_same.
Qed.

Lemma starts_nothing_materialize (t : Q) (base : string) :
  starts_nothing (materialize t base).
Proof.
  unfold materialize.
  apply starts_nothing_bind; [apply starts_nothing_mkdir|intros _].
  apply starts_nothing_bind; [apply starts_nothing_iterdir|intros items].
  apply starts_nothing_bind.
  { apply starts_nothing_for_each. intros item.
    apply starts_nothing_bind; [done|].
    intros []; [apply starts_nothing_copytree|apply starts_nothing_copy2]. }
  intros _. apply starts_nothing_bind; [apply starts_nothing_replace_temperature_strings|].
  by intros _.
Qed.

Lemma materialize_path (t : Q) (base : string) w ws w' :
  materialize t base w = (Ok ws, w') -> ws = Path (folder_name t).
Proof.
  unfold materialize, bind.
  destruct (mkdir_exist_ok _ w) as [[[]|] w1]; [|done].
  destruct (iterdir _ w1) as [[items|] w2]; [|done].
  destruct (for_each items _ w2) as [[[]|] w3]; [|done].
  destruct (replace_temperature_strings _ t w3) as [[[]|] w4]; [|done].
  unfold ret. congruence.
Qed.

Section Runs.

Variable spawn : string -> path -> gmap path node -> option (data * Z).

Lemma keeps_files_execute (folder_path binary_path : path) :
  keeps_files (execute spawn folder_path binary_path).
Proof.
  unfold execute. apply keeps_files_bind; [apply keeps_files_open_w|intros _].
  intros w q d Hq Hd. unfold subprocess_run.
  destruct (spawn _ _ _) as [[out status]|]; [|eauto].
  assert (exists d', <[folder_path ++ ["out.log"] := File out]> (files w) !! q
                     = Some (File d')) as Hins.
  { destruct (decide (folder_path ++ ["out.log"] = q)) as [->|];
      [rewrite lookup_insert_eq|rewrite lookup_insert_ne]; eauto. }
  by destruct (status =? 0).
Qed.

Lemma keeps_files_run_simulation (t : Q) (base : string) (binary_path : path) :
  keeps_files (run_simulation spawn t base binary_path).
Proof.
  unfold run_simulation. apply keeps_files_bind; [apply keeps_files_materialize|].
  intros ws. apply keeps_files_execute.
Qed.

(** What running the binary in a workspace comes to. *)
Lemma execute_cases (folder_path binary_path : path) w :
  let log := folder_path ++ ["out.log"] in
  let binary := path_str binary_path in
  match execute spawn folder_path binary_path w with
  | (Ok _, w') =>
      started w' = started w ++ [(binary, folder_path)]
      /\ exists out, files w' !! log = Some (File out)
  | (Raise e, w') =>
      exit_status (Raise e) = 1
      /\ ((exists status, e = CalledProcessError status /\ status <> 0
                          /\ started w' = started w ++ [(binary, folder_path)])
          \/ (is_os_error e = true /\ started w' = started w))
  end.
Proof.
  intros log binary. unfold execute, bind, open_w, subprocess_run. fold log binary.
  destruct (node_at (files w) log) as [[d|]|]; simpl.
  2:{ split; [done|]. right. by split. }
  all: destruct (spawn binary folder_path _) as [[out status]|]; simpl.
  all: try (split; [done|]; right; by split).
  all: destruct (status =? 0) eqn:Hs; simpl.
  all: try (split; [done|]; exists out; by rewrite lookup_insert_eq).
  all: split; [done|]; left; exists status; split_and!; [done| |done];
    intros ->; done.
Qed.

End Runs.

Lemma raises_errors_bind {A B} (m : M A) (k : A -> M B) :
  raises_errors m -> (forall a, raises_errors (k a)) -> raises_errors (bind m k).
Proof.
  intros Hm Hk w e w'. unfold bind.
  destruct (m w) as [[a|e0] w1] eqn:Hmw.
  - apply Hk.
  - intros [= <- <-]. by apply (Hm w e0 w1).
Qed.

Lemma raises_errors_for_each {A} (l : list A) (body : A -> M unit) :
  (forall a, raises_errors (body a)) -> raises_errors (for_each l body).
Proof.
  intros Hb. induction l as [|a l IH]; [done|].
  cbn [for_each]. apply raises_errors_bind; [apply Hb|by intros _].
Qed.

Lemma raises_errors_materialize (t : Q) (base : string) :
  raises_errors (materialize t base).
Proof.
  unfold materialize.
  apply raises_errors_bind.
  { intros w e w'. unfold mkdir_exist_ok.
    destruct (node_at (files w) _) as [[d|]|]; try by intros [= <- <-].
    destruct (node_at (files w) _) as [[d|]|]; by intros [= <- <-]. }
  intros _. apply raises_errors_bind.
  { intros w e w'. unfold iterdir.
    destruct (node_at (files w) _) as [[d|]|]; by intros [= <- <-]. }
  intros items. apply raises_errors_bind.
  { apply raises_errors_for_each. intros item.
    apply raises_errors_bind; [done|]. intros [] w e w'.
    - unfold copytree.
      destruct (node_at (files w) _) as [[d|]|]; try by intros [= <- <-].
      all: destruct (relative_to item _) as [[|c r]|]; try by intros [= <- <-].
      all: destruct (existsb _ _); by intros [= <- <-].
    - unfold copy2.
      destruct (node_at (files w) item) as [[d|]|]; try by intros [= <- <-].
      destruct (decide _); try by intros [= <- <-].
      destruct (node_at (files w) _) as [[d1|]|]; by intros [= <- <-]. }
  intros _. apply raises_errors_bind; [|done].
  intros w e w'.
  by destruct (replace_temperature_strings_spec (Path (folder_name t)) t w) as (w1 & -> & _).
Qed.

Lemma for_each_app_ok {A} (l1 l2 : list A) (body : A -> M unit) w w1 :
  for_each l1 body w = (Ok tt, w1) ->
  for_each (l1 ++ l2) body w = for_each l2 body w1.
Proof.
  revert w. induction l1 as [|a l1 IH]; intros w.
  - simpl. unfold ret. by intros [= <-].
  - cbn [for_each app]. unfold bind.
    destruct (body a w) as [[[]|e] w0]; [|done]. apply IH.
Qed.

Section Sweeps.

Variable spawn : string -> path -> gmap path node -> option (data * Z).
Variables (base : string) (binary_path : path).

Lemma run_simulation_ok (t : Q) w w' :
  run_simulation spawn t base binary_path w = (Ok tt, w') ->
  started w' = started w ++ [(path_str binary_path, Path (folder_name t))]
  /\ exists out, files w' !! (Path (folder_name t) ++ ["out.log"]) = Some (File out).
Proof.
  unfold run_simulation, bind.
  pose proof (starts_nothing_materialize t base w) as Hs.
  destruct (materialize t base w) as [[ws|e] w1] eqn:Hm; [|done].
  apply materialize_path in Hm as ->. simpl in Hs.
  pose proof (execute_cases spawn (Path (folder_name t)) binary_path w1) as He.
  simpl in He. intros Hrun. rewrite Hrun in He. by rewrite <- Hs.
Qed.

Lemma run_simulation_raises (t : Q) w e w' :
  run_simulation spawn t base binary_path w = (Raise e, w') ->
  exit_status (Raise e) = 1
  /\ (started w' = started w
      \/ started w' = started w ++ [(path_str binary_path, Path (folder_name t))]).
Proof.
  unfold run_simulation, bind.
  pose proof (starts_nothing_materialize t base w) as Hs.
  destruct (materialize t base w) as [[ws|e0] w1] eqn:Hm.
  - apply materialize_path in Hm as ->. simpl in Hs.
    pose proof (execute_cases spawn (Path (folder_name t)) binary_path w1) as He.
    simpl in He. intros Hrun. rewrite Hrun in He. rewrite <- Hs.
    destruct He as [? [(status & _ & _ & ?)|[_ ?]]]; eauto.
  - intros [= <- <-]. split; [|by left].
    by apply (raises_errors_materialize t base w e0 w1).
Qed.

(** A sweep that ends well ran the binary once in each workspace, in
    order, and left a log in each. *)
Lemma sweep_ok (temperatures : list Q) w w' :
  sweep spawn temperatures base binary_path w = (Ok tt, w') ->
  started w' = started w
               ++ ((fun t => (path_str binary_path, Path (folder_name t))) <$> temperatures)
  /\ forall t, t ∈ temperatures ->
       exists out, files w' !! (Path (folder_name t) ++ ["out.log"]) = Some (File out).
Proof.
  unfold sweep. revert w. induction temperatures as [|t ts IH]; intros w.
  - simpl. unfold ret. intros [= <-]. split; [by rewrite List.app_nil_r|].
    by intros t ?%elem_of_nil.
  - cbn [for_each]. unfold bind.
    destruct (run_simulation spawn t base binary_path w) as [[[]|e] w1] eqn:Hrun; [|done].
    apply run_simulation_ok in Hrun as [Hs1 [out Hlog]].
    intros Hrest. destruct (IH w1 Hrest) as [Hs Hlogs]. split.
    + rewrite Hs, Hs1, <- List.app_assoc. done.
    + intros t' [->|Hin]%elem_of_cons; [|by apply Hlogs].
      assert (Path (folder_name t) ++ ["out.log"] <> []) as Hne
        by (by destruct (Path (folder_name t))).
      pose proof (keeps_files_for_each ts
        (fun t => run_simulation spawn t base binary_path)
        (fun t => keeps_files_run_simulation spawn t base binary_path)
        w1 _ out Hne Hlog) as [out' Hout].
      rewrite Hrest in Hout. eauto.
Qed.

End Sweeps.

(** C4: when the runs of the temperatures before the k-th end well and the
    k-th run raises (the binary cannot be started or ends with a status
    other than zero), the sweep ends there with that exception and the state
    of that moment, whatever temperatures follow; the process ends with
    status 1; the binary was started once in the workspace of each earlier
    temperature and at most once in the k-th, never in a later one; and the
    workspace of each earlier temperature holds its log. *)
Theorem sweep_stops_at_first_failure
    (spawn : string -> path -> gmap path node -> option (data * Z))
    (base : string) (binary_path : path)
    (before : list Q) (t : Q) (after : list Q) (w w1 w2 : world) (e : exn) :
  sweep spawn before base binary_path w = (Ok tt, w1) ->
  run_simulation spawn t base binary_path w1 = (Raise e, w2) ->
  sweep spawn (before ++ t :: after) base binary_path w = (Raise e, w2)
  /\ exit_status (Raise e) = 1
  /\ started w1 = started w
       ++ ((fun t' => (path_str binary_path, Path (folder_name t'))) <$> before)
  /\ (started w2 = started w1
      \/ started w2 = started w1 ++ [(path_str binary_path, Path (folder_name t))])
  /\ (forall t', t' ∈ before ->
        exists out, files w2 !! (Path (folder_name t') ++ ["out.log"]) = Some (File out))
  /\ (forall ws wm,
        materialize t base w1 = (Ok ws, wm) ->
        execute spawn ws binary_path wm = (Raise e, w2)
        /\ ((exists status, e = CalledProcessError status /\ status <> 0
               /\ started w2 = started w1 ++ [(path_str binary_path, ws)])
            \/ (is_os_error e = true /\ started w2 = started w1))).
Proof.
  intros Hbefore Hrun.
  destruct (sweep_ok spawn base binary_path before w w1 Hbefore) as [Hs Hlogs].
  destruct (run_simulation_raises spawn base binary_path t w1 e w2 Hrun) as [Hexit Hst].
  split_and!; [|done|done|done| |].
  - unfold sweep in *. rewrite (for_each_app_ok _ _ _ _ _ Hbefore).
    cbn [for_each]. unfold bind. by rewrite Hrun.
  - intros t' Hin. destruct (Hlogs t' Hin) as [out Hout].
    assert (Path (folder_name t') ++ ["out.log"] <> []) as Hne
      by (by destruct (Path (folder_name t'))).
    pose proof (keeps_files_run_simulation spawn t base binary_path w1 _ out Hne Hout)
      as [out' Hout'].
    rewrite Hrun in Hout'. eauto.
  - intros ws wm Hm. unfold run_simulation, bind in Hrun. rewrite Hm in Hrun.
    split; [done|].
    pose proof (starts_nothing_materialize t base w1) as Hsm. rewrite Hm in Hsm.
    simpl in Hsm. rewrite <- Hsm.
    pose proof (execute_cases spawn ws binary_path wm) as He. simpl in He.
    rewrite Hrun in He. by destruct He as [_ He].
Qed.

Lemma sweep_stops_at_first_failure_witness :
  let w := World example_base [] [] in
  let w1 := (sweep failing_at_300 [100; 200]%Q "Base" ["uppasd"] w).2 in
  let w2 := (run_simulation failing_at_300 300 "Base" ["uppasd"] w1).2 in
  sweep failing_at_300 ([100; 200] ++ 300 :: [400; 500])%Q "Base" ["uppasd"] w
  = (Raise (CalledProcessError 2), w2)
  /\ started w2 = [("uppasd", ["T_0100"]); ("uppasd", ["T_0200"]); ("uppasd", ["T_0300"])].
Proof.
  intros w w1 w2.
  destruct (sweep_stops_at_first_failure failing_at_300 "Base" ["uppasd"]
              [100; 200]%Q 300 [400; 500]%Q w w1 w2 (CalledProcessError 2))
    as (Hsweep & _).
  - by vm_compute.
  - by vm_compute.
  - split; [exact Hsweep|by vm_compute].
Defined.

(** ** Copying the base directory *)








Lemma unrelated_sym (B W : path) : unrelated B W -> unrelated W B.
Proof. by intros [??]. Qed.


Lemma foldr_insert_other (dst q : path) (l : list (path * node)) (base : gmap path node) :
  (forall e, e ∈ l -> dst ++ e.1 <> q) ->
  foldr (fun e acc => <[dst ++ e.1 := e.2]> acc) base l !! q = base !! q.
Proof.
  induction l as [|e l IH]; intros Hq; [done|]. simpl.
  rewrite lookup_insert_ne by (apply Hq, list_elem_of_here).
  apply IH. intros e' He'. by apply Hq, list_elem_of_further.
Qed.




Section CopyLoop.

(** The base directory, the workspace, and the file system when the loop
    starts. *)
Variables (B W : path) (fs0 : gmap path node).
Hypothesis HBW : unrelated B W.









End CopyLoop.



















(** ** A missing base directory *)





(** * Further properties of the sweep *)

(** ** A run that ends well *)

Lemma resolve_world (argv : list (string * string)) (w : world)
    (r : result namespace) (w' : world) :
  resolve argv w = (r, w') -> w' = w.
Proof.
  unfold resolve, bind, lift, ret, parse_config_file, read_text.
  intros H.
  repeat (case_match; simplify_eq; unfold bind, ret in * ); done.
Qed.

(** X1: a run of the whole program that ends normally resolved a
    configuration, computed its mesh, and started the binary exactly once
    for each temperature of the mesh, in order, in the workspace of that
    temperature; every such workspace holds a log. *)
Theorem main_completes
    (spawn : string -> path -> gmap path node -> option (data * Z)) (platform : string)
    (argv : list (string * string)) (w w' : world) :
  main spawn platform argv w = (Ok tt, w') ->
  exists args temperatures binary base,
    resolve argv w = (Ok args, w)
    /\ mesh args = Ok temperatures
    /\ getattr args "binary" = Ok (VStr binary)
    /\ getattr args "base" = Ok (VStr base)
    /\ started w' = started w
         ++ ((fun t => (path_str (binary_path_of platform binary), Path (folder_name t)))
               <$> temperatures)
    /\ forall t, t ∈ temperatures ->
         exists out, files w' !! (Path (folder_name t) ++ ["out.log"]) = Some (File out).
Proof.
  unfold main, bind, lift.
  destruct (resolve argv w) as [[args|e] w0] eqn:Hres; [|done].
  apply resolve_world in Hres as Hw. subst w0.
  destruct (mesh args) as [temperatures|e] eqn:Hmesh; [|done].
  destruct (getattr args "binary") as [[| | |binary]|e] eqn:Hbinary; try done.
  destruct (getattr args "base") as [[| | |base]|e] eqn:Hbase; try done.
  cbn [mbind result_bind as_text].
  intros Hsweep. exists args, temperatures, binary, base.
  destruct (sweep_ok spawn base (binary_path_of platform binary) temperatures w w' Hsweep)
    as [Hs Hlogs].
  by split_and!.
Qed.

Lemma main_completes_witness :
  let w' := (main succeeding "linux" [("tmax", "200")] (World example_base [] [])).2 in
  started w' = [("uppasd", ["T_0000"]); ("uppasd", ["T_0100"]); ("uppasd", ["T_0200"])]
  /\ exists out, files w' !! ["T_0100"; "out.log"] = Some (File out).
Proof.
  intros w'.
  destruct (main_completes succeeding "linux" [("tmax", "200")] (World example_base [] []) w')
    as (args & temperatures & binary & base & Hres & Hmesh & Hbin & Hbase & Hs & Hlogs).
  - by vm_compute.
  - split; [by vm_compute|]. exists (Text "done"). by vm_compute.
Defined.

(** ** Nothing is deleted *)

(** X2: a sweep, however it ends, leaves every file that was there a
    file: it never deletes one and never puts a directory in its place. *)
Theorem sweep_keeps_files
    (spawn : string -> path -> gmap path node -> option (data * Z))
    (temperatures : list Q) (base : string) (binary_path : path)
    (w : world) (p : path) (d : data) :
  p <> [] ->
  files w !! p = Some (File d) ->
  exists d', files (sweep spawn temperatures base binary_path w).2 !! p = Some (File d').
Proof.
  intros Hp Hd. unfold sweep.
  by apply (keeps_files_for_each temperatures
              (fun t => run_simulation spawn t base binary_path)
              (fun t => keeps_files_run_simulation spawn t base binary_path) w p d).
Qed.

Lemma sweep_keeps_files_witness :
  exists d',
    files (sweep failing_at_300 [100; 300; 500]%Q "Base" ["uppasd"]
             (World example_base [] [])).2 !! ["Base"; "input.dat"] = Some (File d').
Proof.
  apply (sweep_keeps_files failing_at_300 [100; 300; 500]%Q "Base" ["uppasd"]
           (World example_base [] []) ["Base"; "input.dat"] (Text "T=TEMP K")).
  - discriminate.
  - reflexivity.
Defined.

(** ** A run writes in its workspace only *)

Lemma outside_app (W q r : path) : below W q = false -> q <> W -> W ++ r <> q.
Proof.
  intros Hb Hq <-. destruct r as [|c r].
  - by rewrite List.app_nil_r in Hq.
  - assert (below W (W ++ c :: r) = true) as Ht; [|congruence].
    apply below_spec. by exists (c :: r).
Qed.

Lemma writes_within_same {A} (W : path) (m : M A) :
  (forall w, files (m w).2 = files w) -> writes_within W m.
Proof. intros H w q _ _. by rewrite H. Qed.

Lemma writes_within_bind {A B} (W : path) (m : M A) (k : A -> M B) :
  writes_within W m -> (forall a, writes_within W (k a)) -> writes_within W (bind m k).
Proof.
  intros Hm Hk w q Hb Hq. unfold bind. specialize (Hm w q Hb Hq).
  destruct (m w) as [[a|e] w1]; simpl in *; [|done].
  by rewrite (Hk a w1 q Hb Hq).
Qed.

Lemma writes_within_for_each {A} (W : path) (l : list A) (body : A -> M unit) :
  (forall a, writes_within W (body a)) -> writes_within W (for_each l body).
Proof.
  intros Hb. induction l as [|a l IH]; [by apply writes_within_same|].
  cbn [for_each]. apply writes_within_bind; [apply Hb|by intros _].
Qed.

Lemma writes_within_mkdir (W : path) : writes_within W (mkdir_exist_ok W).
Proof.
  intros w q Hb Hq. unfold mkdir_exist_ok.
  destruct (node_at (files w) W) as [[d|]|]; simpl; try done.
  destruct (node_at (files w) (removelast W)) as [[d|]|]; simpl; try done.
  by rewrite lookup_insert_ne.
Qed.

Lemma writes_within_copy_item (W item : path) : writes_within W (copy_item W item).
Proof.
  intros w q Hb Hq.
  assert (forall r, (W ++ [name item]) ++ r <> q) as Hne.
  { intros r. rewrite <- List.app_assoc. by apply outside_app. }
  pose proof (Hne []) as Hne0. rewrite List.app_nil_r in Hne0.
  unfold copy_item, bind, is_dir. simpl.
  destruct (bool_decide _).
  - unfold copytree.
    destruct (node_at (files w) (W ++ [name item])) as [[d|]|]; simpl; try done.
    all: destruct (relative_to item _) as [[|c r]|]; simpl; try done.
    all: try (by destruct (existsb is_file_entry _)).
    all: destruct (existsb (conflict _ _) _); simpl; try done.
    all: rewrite foldr_insert_other by (intros e _; apply Hne).
    all: by rewrite lookup_insert_ne.
  - unfold copy2.
    destruct (node_at (files w) item) as [[d|]|]; simpl; try done.
    destruct (decide _); simpl; try done.
    destruct (node_at (files w) _) as [[d'|]|]; simpl; try done.
    all: by rewrite lookup_insert_ne.
Qed.

Lemma writes_within_replace_temperature_strings (W : path) (t : Q) :
  writes_within W (replace_temperature_strings W t).
Proof.
  intros w q Hb Hq.
  destruct (replace_temperature_strings_spec W t w) as (w' & -> & _ & Hf & _).
  simpl. by rewrite Hf, Hb.
Qed.

Lemma writes_within_materialize (t : Q) (base : string) :
  writes_within (Path (folder_name t)) (materialize t base).
Proof.
  unfold materialize.
  apply writes_within_bind; [apply writes_within_mkdir|intros _].
  apply writes_within_bind.
  { apply writes_within_same. intros w. unfold iterdir.
    by destruct (node_at (files w) _) as [[d|]|]. }
  intros items. apply writes_within_bind.
  { apply writes_within_for_each. intros item. apply writes_within_copy_item. }
  intros _. apply writes_within_bind; [apply writes_within_replace_temperature_strings|].
  intros _. by apply writes_within_same.
Qed.

Section Confined.

Variable spawn : string -> path -> gmap path node -> option (data * Z).

Lemma writes_within_execute (W binary_path : path) :
  writes_within W (execute spawn W binary_path).
Proof.
  intros w q Hb Hq.
  assert (W ++ ["out.log"] <> q) as Hne by (by apply outside_app).
  unfold execute, bind, open_w, subprocess_run.
  destruct (node_at (files w) _) as [[d|]|]; simpl; try done.
  all: destruct (spawn _ _ _) as [[out status]|]; simpl.
  all: try (by rewrite lookup_insert_ne).
  all: destruct (status =? 0); simpl; by rewrite !lookup_insert_ne.
Qed.

Lemma writes_within_run_simulation (t : Q) (base : string) (binary_path : path) :
  writes_within (Path (folder_name t)) (run_simulation spawn t base binary_path).
Proof.
  intros w q Hb Hq. unfold run_simulation, bind.
  pose proof (writes_within_materialize t base w q Hb Hq) as Hm.
  destruct (materialize t base w) as [[ws|e] w1] eqn:Hrun; simpl in *; [|done].
  apply materialize_path in Hrun as ->.
  by rewrite (writes_within_execute _ binary_path w1 q Hb Hq).
Qed.

End Confined.

(** ** The workspace is an entry of the working directory *)

Lemma split_slash_plain (cur s : string) :
  Str.contains "/" s = false -> split_slash cur s = [String.rev (String.rev_app s cur)].
Proof.
  revert cur. induction s as [|a s IH]; intros cur Hs; [done|].
  rewrite contains_char_cons in Hs. apply orb_false_elim in Hs as [Ha Hs].
  apply bool_decide_eq_false in Ha.
  cbn [split_slash String.rev_app]. rewrite <- (IH (String a cur) Hs).
  destruct a as [[] [] [] [] [] [] [] []]; try done.
Qed.

Lemma Path_plain (text : string) :
  Str.contains "/" text = false -> text <> "" -> text <> "." -> Path text = [text].
Proof.
  intros Hs Hne Hdot. unfold Path. rewrite (split_slash_plain _ _ Hs).
  change (String.rev_app text "") with (String.rev text). rewrite str_rev_involutive.
  assert (Str.startswith "/" text = false) as ->.
  { destruct text as [|a s]; [done|]. rewrite contains_char_cons in Hs.
    apply orb_false_elim in Hs as [Ha _]. apply bool_decide_eq_false in Ha.
    simpl. by destruct (decide ("/"%char = a)). }
  rewrite filter_cons_True by done. done.
Qed.

Lemma contains_char_app (c : ascii) (s1 s2 : string) :
  Str.contains (String c EmptyString) (s1 +:+ s2)
  = Str.contains (String c EmptyString) s1 || Str.contains (String c EmptyString) s2.
Proof.
  induction s1 as [|a s1 IH]; [done|].
  change (String a s1 +:+ s2) with (String a (s1 +:+ s2)).
  by rewrite !contains_char_cons, IH, orb_assoc.
Qed.

Lemma format_04d_chars (n : Z) :
  Str.all_chars (fun c => Str.is_digit c || bool_decide (c = "-"%char)) (format_04d n) = true.
Proof.
  assert (forall s, Str.all_chars Str.is_digit s = true ->
    Str.all_chars (fun c => Str.is_digit c || bool_decide (c = "-"%char)) s = true) as Hw.
  { intros s Hs. eapply all_chars_weaken; [|exact Hs]. by intros c ->. }
  destruct (pretty_N_digits (Z.abs_N n)) as (Hx & _ & _).
  unfold format_04d. destruct (n <? 0).
  - simpl. rewrite all_chars_app. rewrite !Hw; [done|done|apply zeros_digits].
  - rewrite all_chars_app. rewrite !Hw; [done|done|apply zeros_digits].
Qed.

Lemma Path_folder_name (t : Q) : Path (folder_name t) = [folder_name t].
Proof.
  apply Path_plain; [|done|done].
  unfold folder_name. rewrite contains_char_app.
  by rewrite (not_contains_char _ _ _ (format_04d_chars (py_round t))).
Qed.

(** X3: however a sweep ends, it leaves every path as it was that does not
    lie in the workspace of one of its temperatures: what the tool itself
    writes goes into the directories [T_dddd] of the working directory, and
    nowhere else. *)
Theorem sweep_writes_in_workspaces
    (spawn : string -> path -> gmap path node -> option (data * Z))
    (temperatures : list Q) (base : string) (binary_path : path)
    (w : world) (c : string) (r : path) :
  (forall t, t ∈ temperatures -> c <> folder_name t) ->
  files (sweep spawn temperatures base binary_path w).2 !! (c :: r) = files w !! (c :: r).
Proof.
  unfold sweep. revert w. induction temperatures as [|t ts IH]; intros w Hc; [done|].
  cbn [for_each]. unfold bind.
  assert (c <> folder_name t) as Hct by (apply Hc, list_elem_of_here).
  pose proof (writes_within_run_simulation spawn t base binary_path w (c :: r)) as Hrun.
  rewrite Path_folder_name in Hrun.
  destruct (run_simulation spawn t base binary_path w) as [[[]|e] w1]; simpl in Hrun.
  - rewrite IH by (intros t' Ht'; by apply Hc, list_elem_of_further).
    apply Hrun; [|congruence].
    unfold below. simpl. by destruct (decide (folder_name t = c)).
  - simpl. apply Hrun; [|congruence].
    unfold below. simpl. by destruct (decide (folder_name t = c)).
Qed.

Lemma sweep_writes_in_workspaces_witness :
  files (sweep failing_at_300 [100; 300; 500]%Q "Base" ["uppasd"]
           (World example_base [] [])).2 !! ["Base"; "input.dat"]
  = Some (File (Text "T=TEMP K")).
Proof.
  rewrite (sweep_writes_in_workspaces failing_at_300 [100; 300; 500]%Q "Base" ["uppasd"]
             (World example_base [] []) "Base" ["input.dat"]).
  - reflexivity.
  - intros t Ht. unfold folder_name. discriminate.
Defined.

(** ** What a materialization copies *)







(** ** What a run leaves *)

(** Running the binary in a workspace, when that ends well. *)
Lemma execute_ok
    (spawn : string -> path -> gmap path node -> option (data * Z))
    (W binary_path : path) (wm w' : world) :
  let log := W ++ ["out.log"] in
  execute spawn W binary_path wm = (Ok tt, w') ->
  exists out,
    node_at (files wm) log <> Some Dir
    /\ spawn (path_str binary_path) W (<[log := File (Text "")]> (files wm)) = Some (out, 0)
    /\ files w' = <[log := File out]> (files wm)
    /\ written w' = written wm
    /\ started w' = started wm ++ [(path_str binary_path, W)].
Proof.
  intros log. unfold execute, bind, open_w, subprocess_run. fold log.
  destruct (node_at (files wm) log) as [[d|]|] eqn:Hlog; simpl; [|done|].
  all: destruct (spawn _ W _) as [[out status]|] eqn:Hsp; simpl; [|discriminate].
  all: destruct (status =? 0) eqn:Hst; [|discriminate].
  all: apply Z.eqb_eq in Hst as ->.
  all: intros [= <-]; exists out; simpl.
  all: rewrite insert_insert_eq; split_and!; try done; by rewrite Hlog.
Qed.

Lemma run_simulation_inv
    (spawn : string -> path -> gmap path node -> option (data * Z))
    (t : Q) (base : string) (binary_path : path) (w w' : world) (r : result unit) :
  run_simulation spawn t base binary_path w = (r, w') ->
  (exists e, r = Raise e /\ materialize t base w = (Raise e, w'))
  \/ exists wm,
       materialize t base w = (Ok (Path (folder_name t)), wm)
       /\ execute spawn (Path (folder_name t)) binary_path wm = (r, w').
Proof.
  unfold run_simulation, bind.
  destruct (materialize t base w) as [[ws|e] wm] eqn:Hm.
  - apply materialize_path in Hm as ->. intros Hrun. right. by exists wm.
  - intros [= <- <-]. left. by exists e.
Qed.

(** X5: a run that ends well materialized its workspace, started the
    binary there on the file system as the materialization left it but for
    an emptied [out.log], and the binary ended with status 0; afterwards the
    file system is the materialized one with the output of the binary as
    [out.log]. *)
Theorem run_simulation_completes
    (spawn : string -> path -> gmap path node -> option (data * Z))
    (t : Q) (base : string) (binary_path : path) (w w' : world) :
  let W := Path (folder_name t) in
  let log := W ++ ["out.log"] in
  run_simulation spawn t base binary_path w = (Ok tt, w') ->
  exists wm out,
    materialize t base w = (Ok W, wm)
    /\ node_at (files wm) log <> Some Dir
    /\ spawn (path_str binary_path) W (<[log := File (Text "")]> (files wm)) = Some (out, 0)
    /\ files w' = <[log := File out]> (files wm)
    /\ written w' = written wm
    /\ started w' = started w ++ [(path_str binary_path, W)].
Proof.
  intros W log Hrun.
  apply run_simulation_inv in Hrun as [(e & [=] & _)|(wm & Hm & Hex)].
  apply execute_ok in Hex as (out & Hlog & Hsp & Hf & Hwr & Hst).
  pose proof (starts_nothing_materialize t base w) as Hs. rewrite Hm in Hs. simpl in Hs.
  exists wm, out. rewrite <- Hs. by split_and!.
Qed.

Lemma run_simulation_completes_witness :
  let w' := (run_simulation succeeding (3104 # 10) "Base" ["uppasd"]
               (World example_base [] [])).2 in
  files w' !! ["T_0310"; "out.log"] = Some (File (Text "done")).
Proof.
  intros w'.
  destruct (run_simulation_completes succeeding (3104 # 10) "Base" ["uppasd"]
              (World example_base [] []) w')
    as (wm & out & _ & _ & _ & _).
  - by vm_compute.
  - by vm_compute.
Defined.



(** ** The configuration file against the command line *)

Lemma typed_parsed (args : namespace) : typed args -> parsed args.
Proof.
  intros (tmin & tmax & tstep & steps & binary & base & file & -> & H1 & H2 & H3 & _).
  unfold parsed. by repeat eexists.
Qed.

Lemma typed_defaults : typed defaults.
Proof. unfold typed, defaults. repeat eexists; try done. by left. Qed.



(** What the override block makes of a typed namespace. *)
Lemma override_typed (tmin tmax tstep file : pyval) (steps : Z) (binary base : string)
    (config : gmap string string) :
  override [("tmin", tmin); ("tmax", tmax); ("tstep", tstep); ("steps", VInt steps);
            ("binary", VStr binary); ("base", VStr base); ("file", file)] config
  = (tmin' ← py_float (config_get config "tmin" tmin);
     tmax' ← py_float (config_get config "tmax" tmax);
     tstep' ← py_int (config_get config "tstep" tstep);
     steps' ← py_int (config_get config "steps" (VInt steps));
     Ok [("tmin", VFloat tmin'); ("tmax", VFloat tmax'); ("tstep", VInt tstep');
         ("steps", VInt steps');
         ("binary", config_get config "binary" (VStr binary));
         ("base", config_get config "base" (VStr base)); ("file", file)]).
Proof.
  unfold override. attr. cbn [mbind result_bind].
  destruct (py_float (config_get config "tmin" tmin)) as [tmin'|]; cbn [mbind result_bind]; [|done].
  attr. cbn [mbind result_bind].
  destruct (py_float (config_get config "tmax" tmax)) as [tmax'|]; cbn [mbind result_bind]; [|done].
  attr. cbn [mbind result_bind].
  destruct (py_int (config_get config "tstep" tstep)) as [tstep'|]; cbn [mbind result_bind]; [|done].
  attr. cbn [mbind result_bind].
  destruct (py_int (config_get config "steps" (VInt steps))) as [steps'|];
    cbn [mbind result_bind]; [|done].
  attr. cbn [mbind result_bind]. by attr.
Qed.




(** X7: the override block reads the six keys it knows and nothing else:
    two configuration files that agree on them give the same namespace, or
    the same error, so a key the program does not know changes nothing and
    raises nothing. *)
Theorem override_reads_recognized_keys (args : namespace)
    (config config' : gmap string string) :
  (forall key, key ∈ recognized_keys -> config !! key = config' !! key) ->
  override args config = override args config'.
Proof.
  intros H. unfold override, config_get.
  rewrite (H "tmin"), (H "tmax"), (H "tstep"), (H "steps"), (H "binary"), (H "base");
    [done|unfold recognized_keys; in_list..].
Qed.

Lemma override_reads_recognized_keys_witness :
  override defaults (<["colour" := "red"]> {["tmin" := "1"]})
  = override defaults {["tmin" := "1"]}.
Proof.
  apply override_reads_recognized_keys.
  intros key Hk. apply lookup_insert_ne. intros <-.
  apply (bool_decide_eq_true_2 _) in Hk. vm_compute in Hk. discriminate Hk.
Defined.

(** X8: when the override block goes through on the namespace of an
    accepted command line, every recognized key of the file wins over the
    command line: the minimum and maximum are the [float] of the file's
    text, the step and the count the [int] of it, the binary and the base
    the text itself; a key the file leaves out keeps the value of the
    command line, converted the same way.  The [file] attribute and the
    order of the attributes stay. *)
Theorem override_rule (args args' : namespace) (config : gmap string string) :
  typed args -> override args config = Ok args' ->
  (forall key, key ∈ ["tmin"; "tmax"] ->
     exists old q, getattr args key = Ok old
       /\ py_float (config_get config key old) = Ok q
       /\ getattr args' key = Ok (VFloat q))
  /\ (forall key, key ∈ ["tstep"; "steps"] ->
        exists old z, getattr args key = Ok old
          /\ py_int (config_get config key old) = Ok z
          /\ getattr args' key = Ok (VInt z))
  /\ (forall key, key ∈ ["binary"; "base"] ->
        exists old, getattr args key = Ok old
          /\ getattr args' key = Ok (config_get config key old))
  /\ getattr args' "file" = getattr args "file"
  /\ args'.*1 = args.*1.
Proof.
  intros (tmin & tmax & tstep & steps & binary & base & file & -> & H1 & H2 & H3 & Hf).
  rewrite override_typed.
  destruct (py_float (config_get config "tmin" tmin)) as [tmin'|] eqn:E1;
    cbn [mbind result_bind]; [|done].
  destruct (py_float (config_get config "tmax" tmax)) as [tmax'|] eqn:E2;
    cbn [mbind result_bind]; [|done].
  destruct (py_int (config_get config "tstep" tstep)) as [tstep'|] eqn:E3;
    cbn [mbind result_bind]; [|done].
  destruct (py_int (config_get config "steps" (VInt steps))) as [steps'|] eqn:E4;
    cbn [mbind result_bind]; [|done].
  intros [= <-]. split_and!.
  - intros key Hk. repeat (apply elem_of_cons in Hk as [->|Hk]);
      [..|by apply elem_of_nil in Hk]; attr; by eexists _, _.
  - intros key Hk. repeat (apply elem_of_cons in Hk as [->|Hk]);
      [..|by apply elem_of_nil in Hk]; attr; by eexists _, _.
  - intros key Hk. repeat (apply elem_of_cons in Hk as [->|Hk]);
      [..|by apply elem_of_nil in Hk]; attr; by eexists.
  - by attr.
  - done.
Qed.

Lemma override_rule_witness :
  exists args',
    override defaults {["tmax" := "300"; "binary" := "/opt/sim"]} = Ok args'
    /\ getattr args' "tmax" = Ok (VFloat 300)
    /\ getattr args' "binary" = Ok (VStr "/opt/sim")
    /\ getattr args' "tstep" = Ok (VInt 100).
Proof.
  set (config := {["tmax" := "300"; "binary" := "/opt/sim"]} : gmap string string).
  destruct (override defaults config) as [args'|e] eqn:Ho; [|by vm_compute in Ho].
  destruct (override_rule defaults args' config typed_defaults Ho)
    as (Hfloat & Hint & Htext & _).
  exists args'. split; [done|]. split_and!.
  - destruct (Hfloat "tmax") as (old & q & Hold & Hq & ->); [in_list|].
    vm_compute in Hold. injection Hold as <-. vm_compute in Hq. by injection Hq as <-.
  - destruct (Htext "binary") as (old & Hold & ->); [in_list|].
    vm_compute in Hold. by injection Hold as <-.
  - destruct (Hint "tstep") as (old & z & Hold & Hz & ->); [in_list|].
    vm_compute in Hold. injection Hold as <-. vm_compute in Hz. by injection Hz as <-.
Defined.

(** ** How the program ends *)










(** ** The workspaces of a mesh *)







(** ** The entries of the configuration *)

Lemma lstrip_idempotent (s : string) : Str.lstrip (Str.lstrip s) = Str.lstrip s.
Proof.
  induction s as [|a s IH]; [done|]. cbn [Str.lstrip].
  destruct (Str.is_space a) eqn:Ha; [done|]. cbn [Str.lstrip]. by rewrite Ha.
Qed.

Lemma lstrip_head (c : ascii) (s u : string) :
  Str.lstrip s = String c u -> Str.is_space c = false.
Proof.
  induction s as [|a s IH]; [done|]. cbn [Str.lstrip].
  destruct (Str.is_space a) eqn:Ha; [done|]. by intros [= <- _].
Qed.

Lemma lstrip_app (x : string) (c : ascii) (y : string) :
  Str.is_space c = false ->
  Str.lstrip (x +:+ String c y) = Str.lstrip x +:+ String c y.
Proof.
  intros Hc. induction x as [|a x IH].
  - rewrite !str_app_nil_l. cbn [Str.lstrip]. by rewrite Hc.
  - rewrite str_app_cons. cbn [Str.lstrip]. by destruct (Str.is_space a).
Qed.

Lemma rev_cons (c : ascii) (s : string) :
  String.rev (String c s) = String.rev s +:+ String c EmptyString.
Proof. unfold String.rev. cbn [String.rev_app]. by rewrite rev_app_app. Qed.

Lemma rev_snoc (s : string) (c : ascii) :
  String.rev (s +:+ String c EmptyString) = String c (String.rev s).
Proof.
  rewrite <- (str_rev_involutive s) at 1. rewrite <- rev_cons.
  by rewrite str_rev_involutive.
Qed.

Lemma rstrip_cons (c : ascii) (u : string) :
  Str.is_space c = false -> Str.rstrip (String c u) = String c (Str.rstrip u).
Proof.
  intros Hc. unfold Str.rstrip. by rewrite rev_cons, lstrip_app, rev_snoc.
Qed.

Lemma rstrip_idempotent (s : string) : Str.rstrip (Str.rstrip s) = Str.rstrip s.
Proof. unfold Str.rstrip. by rewrite str_rev_involutive, lstrip_idempotent. Qed.

(** A trimmed text is empty or starts with a character that is no white
    space. *)
Lemma strip_head (s : string) :
  Str.strip s = EmptyString
  \/ exists c u, Str.strip s = String c u /\ Str.is_space c = false.
Proof.
  unfold Str.strip. destruct (Str.lstrip s) as [|c u] eqn:Hs; [by left|].
  right. pose proof (lstrip_head _ _ _ Hs) as Hc.
  exists c, (Str.rstrip u). by rewrite rstrip_cons.
Qed.

(** Trimming a trimmed text changes nothing. *)
Lemma strip_idempotent (s : string) : Str.strip (Str.strip s) = Str.strip s.
Proof.
  destruct (strip_head s) as [->|(c & u & Hs & Hc)]; [done|].
  unfold Str.strip at 1. rewrite Hs. cbn [Str.lstrip]. rewrite Hc, <- Hs.
  unfold Str.strip. apply rstrip_idempotent.
Qed.

Lemma startswith_char_strip (c : ascii) (key rest : string) :
  Str.startswith (String c EmptyString) (key +:+ rest) = false ->
  Str.lstrip (key +:+ rest) = key +:+ rest ->
  Str.startswith (String c EmptyString) (Str.strip key) = false.
Proof.
  destruct key as [|a key]; [done|]. rewrite str_app_cons. intros Hc Hl.
  pose proof (lstrip_head _ _ _ Hl) as Ha.
  unfold Str.strip. cbn [Str.lstrip]. rewrite Ha, rstrip_cons by done.
  revert Hc. cbn [Str.startswith]. by destruct (decide (c = a)).
Qed.

Lemma lstrip_strip (s : string) : Str.lstrip (Str.strip s) = Str.strip s.
Proof.
  destruct (strip_head s) as [->|(c & u & -> & Hc)]; [done|].
  cbn [Str.lstrip]. by rewrite Hc.
Qed.

(** A text is cut at the first occurrence of a character in one way. *)
Lemma cut_unique (c : ascii) (key k value v : string) :
  key +:+ String c value = k +:+ String c v ->
  Str.contains (String c EmptyString) key = false ->
  Str.contains (String c EmptyString) k = false ->
  k = key /\ v = value.
Proof.
  revert k. induction key as [|a key IH]; intros [|b k];
    rewrite ?str_app_cons, ?str_app_nil_l, ?contains_char_cons; intros H1 Hkey Hk.
  - by injection H1 as ->.
  - injection H1 as <- _. by rewrite bool_decide_true in Hk.
  - injection H1 as -> _. by rewrite bool_decide_true in Hkey.
  - injection H1 as -> H1.
    apply orb_false_elim in Hk as [_ Hk]. apply orb_false_elim in Hkey as [_ Hkey].
    by destruct (IH k H1 Hkey Hk) as [-> ->].
Qed.

(** What a line does to the mapping, whatever the mapping: nothing, or it
    stores one entry; the key of the entry holds no equals sign and does
    not start a comment, and key and value are trimmed. *)
Lemma config_line_cases (line : string) :
  (forall config, config_line config line = config)
  \/ exists key value,
       (forall config, config_line config line = <[key := value]> config)
       /\ Str.contains "=" key = false
       /\ Str.startswith "#" key = false
       /\ Str.strip key = key /\ Str.strip value = value.
Proof.
  destruct (Str.contains "=" line) eqn:Heq.
  2:{ left. intros config. apply config_line_skip. by left. }
  destruct (Str.startswith "#" (Str.strip line)) eqn:Hc.
  { left. intros config. apply config_line_skip. by right. }
  right.
  destruct (config_line_store ∅ line Heq Hc) as (key & value & Hline & Hkey & _).
  exists (Str.strip key), (Str.strip value). split_and!.
  - intros config. unfold config_line. rewrite Heq, Hc. simpl.
    assert (Str.contains "=" (Str.strip line) = true) as Hs
      by (by rewrite contains_char_strip).
    destruct (split1_spec _ _ Hs) as [H1 H2].
    destruct (Str.split1 "=" (Str.strip line)) as [k v] eqn:Hkv; simpl in *.
    rewrite Hline in H1.
    by destruct (cut_unique "=" key k value v H1 Hkey H2) as [-> ->].
  - by rewrite contains_char_strip.
  - apply startswith_char_strip with ("=" +:+ value).
    + by rewrite <- Hline.
    + rewrite <- Hline. apply lstrip_strip.
  - apply strip_idempotent.
  - apply strip_idempotent.
Qed.

Lemma foldl_config_line_entry (lines : list string) (config : gmap string string)
    (key value : string) :
  foldl config_line config lines !! key = Some value ->
  config !! key = Some value
  \/ exists line, line ∈ lines /\ config_line ∅ line = {[key := value]}
       /\ Str.contains "=" key = false /\ Str.startswith "#" key = false
       /\ Str.strip key = key /\ Str.strip value = value.
Proof.
  revert config. induction lines as [|line lines IH]; intros config; [by left|].
  cbn [foldl]. intros [Hc|(l & Hl & Hrest)]%IH.
  - destruct (config_line_cases line) as [Hskip|(k & v & Hstore & Hk)].
    + left. by rewrite Hskip in Hc.
    + rewrite Hstore in Hc. destruct (decide (k = key)) as [->|Hne].
      * rewrite lookup_insert_eq in Hc. injection Hc as ->.
        right. exists line. split; [apply list_elem_of_here|].
        split; [|done]. by rewrite Hstore, insert_empty.
      * left. by rewrite lookup_insert_ne in Hc.
  - right. exists l. split; [by apply list_elem_of_further|done].
Qed.

(** X12: every entry of the mapping that [parse_config_file] returns was
    stored by a line of the file, alone; its key holds no equals sign and
    does not start with the comment sign, and its key and its value carry
    no white space at either end. *)
Theorem parse_config_file_entries (file_path : string) (w w' : world)
    (config : gmap string string) (key value : string) :
  parse_config_file file_path w = (Ok config, w') ->
  config !! key = Some value ->
  w' = w
  /\ (exists text line,
        node_at (files w) (Path file_path) = Some (File (Text text))
        /\ line ∈ Str.lines text /\ config_line ∅ line = {[key := value]})
  /\ Str.contains "=" key = false
  /\ Str.startswith "#" key = false
  /\ Str.strip key = key /\ Str.strip value = value.
Proof.
  unfold parse_config_file, bind, read_text, ret.
  destruct (node_at (files w) (Path file_path)) as [[[text|raw]|]|] eqn:Hn; try done.
  intros [= <- <-] Hk. unfold parse_config_text in Hk.
  apply foldl_config_line_entry in Hk as [Hk|(line & Hl & Hline & Hrest)]; [done|].
  split; [done|]. split; [|done]. by exists text, line.
Qed.

Lemma parse_config_file_entries_witness :
  Str.strip "/opt/sim" = "/opt/sim".
Proof.
  set (w := World {[ ["sweep.cfg"] := File (Text example_config) ]} [] []).
  destruct (parse_config_file_entries "sweep.cfg" w w
              {[ "tmin" := "100"; "tmax" := "300"; "tstep" := "100";
                 "binary" := "/opt/sim" ]} "binary" "/opt/sim")
    as (_ & _ & _ & _ & _ & Hv).
  - by vm_compute.
  - by vm_compute.
  - exact Hv.
Defined.

(** ** The count-mode mesh (line 169) *)



(** ** A downward mesh *)



(** ** The binary on Windows (lines 178-182) *)

Lemma split_slash_other (a : ascii) (cur s : string) :
  a <> "/"%char -> split_slash cur (String a s) = split_slash (String a cur) s.
Proof. intros Ha. destruct a as [[] [] [] [] [] [] [] []]; done. Qed.

Lemma rev_rev_app (s cur : string) :
  String.rev (String.rev_app s cur) = String.rev cur +:+ s.
Proof.
  unfold String.rev. by rewrite rev_app_rev_app, str_app_nil_r, rev_app_app.
Qed.

(** The last component of a text that ends with a text without slash ends
    with it. *)
Lemma split_slash_app_last (cur s t : string) :
  Str.contains "/" t = false ->
  exists pre u, split_slash cur (s +:+ t) = pre ++ [u +:+ t].
Proof.
  intros Ht. revert cur. induction s as [|a s IH]; intros cur.
  - rewrite str_app_nil_l, (split_slash_plain _ _ Ht), rev_rev_app.
    by exists [], (String.rev cur).
  - rewrite str_app_cons. destruct (decide (a = "/"%char)) as [->|Ha].
    + cbn [split_slash]. destruct (IH EmptyString) as (pre & u & ->).
      by exists (String.rev cur :: pre), u.
    + rewrite split_slash_other by done. apply IH.
Qed.

Lemma Path_app_last (s t : string) :
  Str.contains "/" t = false -> (2 <= String.length t)%nat ->
  exists pre u, Path (s +:+ t) = pre ++ [u +:+ t].
Proof.
  intros Ht Hlen. unfold Path.
  destruct (split_slash_app_last EmptyString s t Ht) as (pre & u & ->).
  rewrite filter_app, filter_cons_True, filter_nil.
  2:{ split; intros Heq; apply (f_equal String.length) in Heq;
        rewrite length_app_str in Heq; simpl in Heq; lia. }
  destruct (Str.startswith "/" (s +:+ t)).
  - by eexists (_ :: _), u.
  - by eexists _, u.
Qed.

Lemma path_str_last (p : path) (x : string) :
  exists v, path_str (p ++ [x]) = v +:+ x.
Proof.
  induction p as [|c p IH]; [by exists EmptyString|].
  destruct IH as [v IH].
  assert (path_str ((c :: p) ++ [x])
          = if decide (c = "/") then c +:+ path_str (p ++ [x])
            else c +:+ "/" +:+ path_str (p ++ [x])) as ->.
  { by destruct p. }
  rewrite IH. destruct (decide (c = "/")).
  - exists (c +:+ v). by rewrite app_assoc_str.
  - exists (c +:+ "/" +:+ v). by rewrite !app_assoc_str.
Qed.

Lemma lower_app (s1 s2 : string) :
  Str.lower (s1 +:+ s2) = Str.lower s1 +:+ Str.lower s2.
Proof.
  induction s1 as [|a s1 IH]; [done|].
  rewrite str_app_cons. cbn [Str.lower]. by rewrite IH.
Qed.

Lemma rev_app_distr_str (s1 s2 : string) :
  String.rev (s1 +:+ s2) = String.rev s2 +:+ String.rev s1.
Proof.
  induction s1 as [|a s1 IH].
  - by rewrite str_app_nil_l, str_app_nil_r.
  - by rewrite str_app_cons, !rev_cons, IH, app_assoc_str.
Qed.

Lemma startswith_app (p s : string) : Str.startswith p (p +:+ s) = true.
Proof.
  induction p as [|a p IH]; [done|].
  rewrite str_app_cons. cbn [Str.startswith]. by destruct (decide (a = a)).
Qed.

Lemma endswith_app (s p : string) : Str.endswith p (s +:+ p) = true.
Proof. unfold Str.endswith. rewrite rev_app_distr_str. apply startswith_app. Qed.

(** X15: on a platform whose name does not start with [win] the binary is
    the path given.  On one whose name does, the text of the path started,
    in lower case, always ends with [.exe]: a path that ends with it in any
    case is kept, any other gets the suffix. *)
Theorem binary_path_of_rule (platform binary : string) :
  (Str.startswith "win" platform = false -> binary_path_of platform binary = Path binary)
  /\ (Str.startswith "win" platform = true ->
      Str.endswith ".exe" (Str.lower (path_str (binary_path_of platform binary))) = true
      /\ (Str.endswith ".exe" (Str.lower (path_str (Path binary))) = true ->
          binary_path_of platform binary = Path binary)
      /\ (Str.endswith ".exe" (Str.lower (path_str (Path binary))) = false ->
          binary_path_of platform binary = Path (path_str (Path binary) +:+ ".exe"))).
Proof.
  unfold binary_path_of. split.
  - by intros ->.
  - intros ->. cbn [andb].
    destruct (Str.endswith ".exe" (Str.lower (path_str (Path binary)))) eqn:He;
      cbn [negb]; [done|].
    split_and!; [|done|done].
    destruct (Path_app_last (path_str (Path binary)) ".exe") as (pre & u & ->);
      [done|simpl; lia|].
    destruct (path_str_last pre (u +:+ ".exe")) as [v ->].
    rewrite <- app_assoc_str, lower_app. apply endswith_app.
Qed.

Lemma binary_path_of_rule_witness :
  binary_path_of "win32" "./uppasd" = ["uppasd.exe"]
  /\ binary_path_of "linux" "./uppasd" = ["uppasd"].
Proof.
  destruct (binary_path_of_rule "win32" "./uppasd") as [_ Hwin].
  destruct (binary_path_of_rule "linux" "./uppasd") as [Hother _].
  split.
  - destruct Hwin as (_ & _ & ->); reflexivity.
  - rewrite Hother; reflexivity.
Defined.

(** ** A base directory that cannot be listed *)



(** ** What a sweep leaves *)

Section Filled.

Variable spawn : string -> path -> gmap path node -> option (data * Z).
Variables (base : string) (binary_path : path).






End Filled.


(** ** The command line (lines 112-149) *)








(** ** A small step and a configuration file *)



(** ** Two temperatures, one workspace *)



